(** * Art Institute Explorer: the personal-gallery persistence layer

    A shallow embedding of [src/schemas/noteSchema.ts],
    [src/schemas/artworkSchema.ts] and [src/utils/galleryStorage.ts].

    - JavaScript values are an inductive type [value]; a JavaScript number is
      [NaN], an infinity, or the rational it denotes (so [-0] and [0] are one
      number, as they are for [===] and for [JSON.stringify]).
    - A string is a Rocq [string]; [String.length] stands for the [.length]
      of the source (one character per code unit).
    - Zod schemas are parsers [value -> result A] built from combinators that
      follow Zod 4 ([z.number], [z.string], [.nullable], [.optional],
      [.default], [.max], [z.object]); a failed parse carries the issues of
      every field, in field order.
    - The browser is a [world]: the text under the key [aic_gallery] and the
      list of observable events (storage calls and console lines).  Code that
      may throw runs in a state-and-exception monad [M].
    - A stored text is described by what [JSON.parse] makes of it. *)

From Stdlib Require Import ZArith QArith Bool List Ascii String Lia.
Import ListNotations.
Open Scope string_scope.
Open Scope list_scope.
Set Warnings "-register-all".

(** ** JavaScript values *)

Inductive number : Type :=
| NaN
| Infinity
| NegInfinity
| Finite (q : Q).

Inductive value : Type :=
| VUndefined
| VNull
| VBool (b : bool)
| VNumber (n : number)
| VString (s : string)
| VArray (items : list value)
| VObject (props : list (string * value)).

(** [a === b] on numbers. *)
Definition number_eq (a b : number) : bool :=
  match a, b with
  | Finite x, Finite y => Qeq_bool x y
  | Infinity, Infinity => true
  | NegInfinity, NegInfinity => true
  | _, _ => false
  end.

(** [Number.isFinite]. *)
Definition isFinite (n : number) : bool :=
  match n with Finite _ => true | _ => false end.

(** [Number.isInteger]. *)
Definition isInteger (n : number) : bool :=
  match n with
  | Finite q => (Qnum q mod Zpos (Qden q) =? 0)%Z
  | _ => false
  end.

Definition int (z : Z) : number := Finite (inject_Z z).

(** Property read [obj[key]]: [undefined] when the key is absent.  An object
    is the list of its properties; the first binding of a key is the
    property. *)
Fixpoint get (props : list (string * value)) (key : string) : value :=
  match props with
  | [] => VUndefined
  | (k, v) :: rest => if String.eqb k key then v else get rest key
  end.

(** ** Zod *)

Inductive issue_code : Type :=
| invalid_type (expected : string)
| too_big (maximum : nat) (message : string).

Record issue : Type := Issue { code : issue_code; path : list string }.

Inductive result (A : Type) : Type :=
| Ok (a : A)
| Err (issues : list issue).
Arguments Ok {A} a.
Arguments Err {A} issues.

Definition schema (A : Type) : Type := value -> result A.

Definition is_ok {A} (r : result A) : bool :=
  match r with Ok _ => true | Err _ => false end.

(** [string | null] and [T | undefined]. *)
Inductive Nullable (A : Type) : Type :=
| Null
| NotNull (a : A).
Arguments Null {A}.
Arguments NotNull {A} a.

Inductive Optional (A : Type) : Type :=
| Undefined
| Defined (a : A).
Arguments Undefined {A}.
Arguments Defined {A} a.

Module z.

(** [z.number()]: a number that is neither [NaN] nor infinite. *)
Definition number : schema number := fun v =>
  match v with
  | VNumber n => if isFinite n then Ok n else Err [Issue (invalid_type "number") []]
  | _ => Err [Issue (invalid_type "number") []]
  end.

(** [z.string()]. *)
Definition string : schema string := fun v =>
  match v with
  | VString s => Ok s
  | _ => Err [Issue (invalid_type "string") []]
  end.

(** [.max(n, message)] on a string schema. *)
Definition max (n : nat) (message : String.string) (s : schema String.string)
  : schema String.string := fun v =>
  match s v with
  | Ok str => if (String.length str <=? n)%nat then Ok str
              else Err [Issue (too_big n message) []]
  | Err e => Err e
  end.

(** [.nullable()]. *)
Definition nullable {A} (s : schema A) : schema (Nullable A) := fun v =>
  match v with
  | VNull => Ok Null
  | _ => match s v with Ok a => Ok (NotNull a) | Err e => Err e end
  end.

(** [.optional()]. *)
Definition optional {A} (s : schema A) : schema (Optional A) := fun v =>
  match v with
  | VUndefined => Ok Undefined
  | _ => match s v with Ok a => Ok (Defined a) | Err e => Err e end
  end.

(** [.default(d)]: only [undefined] is replaced. *)
Definition default {A} (d : A) (s : schema A) : schema A := fun v =>
  match v with
  | VUndefined => Ok d
  | _ => s v
  end.

(** One property of a [z.object]: parse [obj[key]], prefix the path. *)
Definition field {A} (props : list (String.string * value)) (key : String.string)
           (s : schema A) : result A :=
  match s (get props key) with
  | Ok a => Ok a
  | Err e => Err (map (fun i => Issue (code i) (key :: path i)) e)
  end.

(** Issues of all properties are collected. *)
Definition ap {A B} (f : result (A -> B)) (x : result A) : result B :=
  match f, x with
  | Ok g, Ok a => Ok (g a)
  | Ok _, Err e => Err e
  | Err e, Ok _ => Err e
  | Err e, Err e' => Err (e ++ e')
  end.

End z.

Notation "f <*> x" := (z.ap f x) (at level 50, left associativity).

(** ** noteSchema.ts *)

Record Note : Type := mkNote {
  artworkId : number;
  note_text : string
}.

Definition NoteSchema : schema Note := fun v =>
  match v with
  | VObject o =>
      Ok mkNote
        <*> z.field o "artworkId" z.number
        <*> z.field o "note"
              (z.default ""
                 (z.max 500 "Notiz darf maximal 500 Zeichen lang sein" z.string))
  | _ => Err [Issue (invalid_type "object") []]
  end.

Record SavedArtwork : Type := mkSavedArtwork {
  id : number;
  title : string;
  artist_title : Nullable string;
  image_id : Nullable string;
  date_display : Optional (Nullable string);
  medium_display : Optional (Nullable string);
  place_of_origin : Optional (Nullable string);
  dimensions : Optional (Nullable string);
  note : string
}.

Definition SavedArtworkSchema : schema SavedArtwork := fun v =>
  match v with
  | VObject o =>
      Ok mkSavedArtwork
        <*> z.field o "id" z.number
        <*> z.field o "title" z.string
        <*> z.field o "artist_title" (z.nullable z.string)
        <*> z.field o "image_id" (z.nullable z.string)
        <*> z.field o "date_display" (z.optional (z.nullable z.string))
        <*> z.field o "medium_display" (z.optional (z.nullable z.string))
        <*> z.field o "place_of_origin" (z.optional (z.nullable z.string))
        <*> z.field o "dimensions" (z.optional (z.nullable z.string))
        <*> z.field o "note" (z.default "" z.string)
  | _ => Err [Issue (invalid_type "object") []]
  end.

(** ** artworkSchema.ts *)

Module Artwork.

Record t : Type := mk {
  id : number;
  title : string;
  artist_title : Nullable string;
  image_id : Nullable string;
  date_display : Optional (Nullable string);
  medium_display : Optional (Nullable string);
  place_of_origin : Optional (Nullable string);
  dimensions : Optional (Nullable string)
}.

End Artwork.

Definition Unbekannter_Titel : string := "Unbekannter Titel".

(** "Unbekannter Künstler"; the u-umlaut is the code unit U+00FC. *)
Definition Unbekannter_Kuenstler : string :=
  "Unbekannter K" ++ String (Ascii.ascii_of_nat 252) "nstler".

Definition ArtworkSchema : schema Artwork.t := fun v =>
  match v with
  | VObject o =>
      Ok Artwork.mk
        <*> z.field o "id" z.number
        <*> z.field o "title" (z.default Unbekannter_Titel z.string)
        <*> z.field o "artist_title"
              (z.default (NotNull Unbekannter_Kuenstler) (z.nullable z.string))
        <*> z.field o "image_id" (z.default Null (z.nullable z.string))
        <*> z.field o "date_display" (z.optional (z.nullable z.string))
        <*> z.field o "medium_display" (z.optional (z.nullable z.string))
        <*> z.field o "place_of_origin" (z.optional (z.nullable z.string))
        <*> z.field o "dimensions" (z.optional (z.nullable z.string))
  | _ => Err [Issue (invalid_type "object") []]
  end.

(** ** The browser: local storage, JSON and the console *)

(** A stored text, by what [JSON.parse] makes of it: the empty string (falsy,
    never parsed), a text on which [JSON.parse] throws, or a text that
    [JSON.parse] turns into [v]. *)
Inductive text : Type :=
| EmptyText
| Malformed
| Json (v : value).

Inductive exn : Type :=
| Error (message : string)
| ZodError (issues : list issue)
| SyntaxError
| TypeError
| QuotaExceededError
| SecurityError.

Inductive event : Type :=
| GetItem
| SetItem (t : text)
| RemoveItem
| ConsoleError (message : string) (error : option exn)
| ConsoleWarn (message : string).

Record world : Type := World {
  stored : option text;
  events : list event
}.

Inductive outcome (A : Type) : Type :=
| Return (a : A)
| Throw (e : exn).
Arguments Return {A} a.
Arguments Throw {A} e.

Definition M (A : Type) : Type := world -> outcome A * world.

Definition ret {A} (a : A) : M A := fun w => (Return a, w).

Definition throw {A} (e : exn) : M A := fun w => (Throw e, w).

Definition bind {A B} (m : M A) (k : A -> M B) : M B := fun w =>
  match m w with
  | (Return a, w') => k a w'
  | (Throw e, w') => (Throw e, w')
  end.

Definition try_catch {A} (body : M A) (handler : exn -> M A) : M A := fun w =>
  match body w with
  | (Return a, w') => (Return a, w')
  | (Throw e, w') => handler e w'
  end.

Notation "x <- m ;; k" := (bind m (fun x => k))
  (at level 61, m at next level, right associativity).
Notation "m ;; k" := (bind m (fun _ => k))
  (at level 61, right associativity).

Definition emit (e : event) : M unit := fun w =>
  (Return tt, World (stored w) (events w ++ [e])).

Definition console_error (message : string) (error : option exn) : M unit :=
  emit (ConsoleError message error).

Definition console_warn (message : string) : M unit :=
  emit (ConsoleWarn message).

(** [schema.parse(v)]: the result, or a thrown [ZodError]. *)
Definition parse {A} (s : schema A) (v : value) : M A :=
  match s v with
  | Ok a => ret a
  | Err e => throw (ZodError e)
  end.

Definition JSON_parse (t : text) : M value :=
  match t with
  | Json v => ret v
  | _ => throw SyntaxError
  end.

(** What [JSON.parse (JSON.stringify v)] is: properties holding [undefined]
    are left out, [undefined] in an array and non-finite numbers become
    [null]. *)
Fixpoint jsonify (v : value) : value :=
  match v with
  | VUndefined => VNull
  | VNumber n => if isFinite n then VNumber n else VNull
  | VArray items => VArray (map jsonify items)
  | VObject props =>
      VObject (flat_map (fun kv =>
                 let '(k, x) := kv in
                 match x with
                 | VUndefined => []
                 | _ => [(k, jsonify x)]
                 end) props)
  | _ => v
  end.

Definition JSON_stringify (v : value) : text := Json (jsonify v).

(** [T | null] and [T | undefined] as JavaScript values. *)
Definition of_nullable (x : Nullable string) : value :=
  match x with Null => VNull | NotNull s => VString s end.

Definition of_optional (x : Optional (Nullable string)) : value :=
  match x with Undefined => VUndefined | Defined n => of_nullable n end.

(** A [SavedArtwork] object. *)
Definition to_value (a : SavedArtwork) : value :=
  VObject [ ("id", VNumber (id a));
            ("title", VString (title a));
            ("artist_title", of_nullable (artist_title a));
            ("image_id", of_nullable (image_id a));
            ("date_display", of_optional (date_display a));
            ("medium_display", of_optional (medium_display a));
            ("place_of_origin", of_optional (place_of_origin a));
            ("dimensions", of_optional (dimensions a));
            ("note", VString (note a)) ].

(** [gallery.findIndex(p)], [-1] when nothing matches. *)
Fixpoint findIndex {A} (p : A -> bool) (l : list A) : Z :=
  match l with
  | [] => (-1)%Z
  | x :: rest =>
      if p x then 0%Z
      else let i := findIndex p rest in
           if (i =? -1)%Z then (-1)%Z else (i + 1)%Z
  end.

(** [gallery[i] = x] for an index inside the array. *)
Fixpoint assign {A} (l : list A) (i : nat) (x : A) : list A :=
  match l, i with
  | [] , _ => []
  | _ :: rest, O => x :: rest
  | y :: rest, S j => y :: assign rest j x
  end.

Definition with_note (a : SavedArtwork) (n : string) : SavedArtwork :=
  mkSavedArtwork (id a) (title a) (artist_title a) (image_id a)
    (date_display a) (medium_display a) (place_of_origin a) (dimensions a) n.

(** ** galleryStorage.ts *)

Section GalleryStorage.

(** Whether the browser accepts a write of the given text (quota,
    private mode); [localStorage.setItem] throws when it does not. *)
Variable quota : text -> bool.

Definition localStorage_getItem : M (option text) := fun w =>
  (Return (stored w), World (stored w) (events w ++ [GetItem])).

Definition localStorage_setItem (t : text) : M unit := fun w =>
  if quota t
  then (Return tt, World (Some t) (events w ++ [SetItem t]))
  else (Throw QuotaExceededError, World (stored w) (events w ++ [SetItem t])).

(** Whether the browser lets the entry be removed;
    [localStorage.removeItem] throws when access to the storage is denied. *)
Variable removable : bool.

Definition localStorage_removeItem : M unit := fun w =>
  if removable
  then (Return tt, World None (events w ++ [RemoveItem]))
  else (Throw SecurityError, World (stored w) (events w ++ [RemoveItem])).

(** The [.map] of [loadGallery]: each element is parsed on its own. *)
Fixpoint validate_each (items : list value) : M (list (option SavedArtwork)) :=
  match items with
  | [] => ret []
  | item :: rest =>
      r <- try_catch
             (a <- parse SavedArtworkSchema item ;; ret (Some a))
             (fun error =>
                console_error "Ungültiges Artwork in Galerie:" (Some error) ;;
                ret None) ;;
      rs <- validate_each rest ;;
      ret (r :: rs)
  end.

(** The [.filter] of [loadGallery]. *)
Fixpoint not_null (l : list (option SavedArtwork)) : list SavedArtwork :=
  match l with
  | [] => []
  | Some a :: rest => a :: not_null rest
  | None :: rest => not_null rest
  end.

Definition loadGallery : M (list SavedArtwork) :=
  try_catch
    (storedData <- localStorage_getItem ;;
     match storedData with
     | None => ret []
     | Some EmptyText => ret []
     | Some t =>
         parsedData <- JSON_parse t ;;
         match parsedData with
         | VArray items =>
             validatedArtworks <- validate_each items ;;
             ret (not_null validatedArtworks)
         | _ =>
             console_error "Gespeicherte Galerie-Daten sind kein Array" None ;;
             ret []
         end
     end)
    (fun error =>
       console_error "Fehler beim Laden der Galerie:" (Some error) ;;
       ret []).

Definition saveGallery (gallery : list SavedArtwork) : M unit :=
  try_catch
    (localStorage_setItem (JSON_stringify (VArray (map to_value gallery))))
    (fun error =>
       console_error "Fehler beim Speichern der Galerie:" (Some error) ;;
       throw (Error "Galerie konnte nicht gespeichert werden")).

Definition addToGallery (artwork : Artwork.t) : M bool :=
  try_catch
    (gallery <- loadGallery ;;
     let exists_ := existsb (fun item => number_eq (id item) (Artwork.id artwork)) gallery in
     if exists_ then
       console_warn "Kunstwerk ist bereits in der Galerie" ;;
       ret false
     else
       let savedArtwork :=
         mkSavedArtwork (Artwork.id artwork) (Artwork.title artwork)
           (Artwork.artist_title artwork) (Artwork.image_id artwork)
           (Artwork.date_display artwork) (Artwork.medium_display artwork)
           (Artwork.place_of_origin artwork) (Artwork.dimensions artwork) "" in
       validated <- parse SavedArtworkSchema (to_value savedArtwork) ;;
       saveGallery (gallery ++ [validated]) ;;
       ret true)
    (fun error =>
       console_error "Fehler beim Hinzufügen zur Galerie:" (Some error) ;;
       throw (Error "Kunstwerk konnte nicht zur Galerie hinzugefügt werden")).

Definition updateNote (artworkId : number) (note : string) : M bool :=
  try_catch
    ((if (500 <? String.length note)%nat
      then throw (Error "Notiz darf maximal 500 Zeichen lang sein")
      else ret tt) ;;
     gallery <- loadGallery ;;
     let artworkIndex := findIndex (fun item => number_eq (id item) artworkId) gallery in
     if (artworkIndex =? -1)%Z then
       console_warn "Kunstwerk nicht in der Galerie gefunden" ;;
       ret false
     else
       match nth_error gallery (Z.to_nat artworkIndex) with
       | None => throw TypeError
       | Some item =>
           validated <- parse SavedArtworkSchema (to_value (with_note item note)) ;;
           saveGallery (assign gallery (Z.to_nat artworkIndex) validated) ;;
           ret true
       end)
    (fun error =>
       console_error "Fehler beim Aktualisieren der Notiz:" (Some error) ;;
       throw (Error "Notiz konnte nicht aktualisiert werden")).

Definition removeFromGallery (artworkId : number) : M bool :=
  try_catch
    (gallery <- loadGallery ;;
     let exists_ := existsb (fun item => number_eq (id item) artworkId) gallery in
     if negb exists_ then
       console_warn "Kunstwerk nicht in der Galerie gefunden" ;;
       ret false
     else
       let updatedGallery :=
         filter (fun item => negb (number_eq (id item) artworkId)) gallery in
       saveGallery updatedGallery ;;
       ret true)
    (fun error =>
       console_error "Fehler beim Entfernen aus der Galerie:" (Some error) ;;
       throw (Error "Kunstwerk konnte nicht aus der Galerie entfernt werden")).

Definition isInGallery (artworkId : number) : M bool :=
  gallery <- loadGallery ;;
  ret (existsb (fun item => number_eq (id item) artworkId) gallery).

Definition clearGallery : M unit :=
  try_catch
    localStorage_removeItem
    (fun error =>
       console_error "Fehler beim Löschen der Galerie:" (Some error) ;;
       throw (Error "Galerie konnte nicht gelöscht werden")).

End GalleryStorage.

(** * Vocabulary of the properties *)

(** The elements that pass [SavedArtworkSchema], in order; the others are
    left out. *)
Definition valid_items (items : list value) : list SavedArtwork :=
  flat_map (fun item =>
              match SavedArtworkSchema item with
              | Ok a => [a]
              | Err _ => []
              end) items.

(** The collection a stored text stands for. *)
Definition decode (s : option text) : list SavedArtwork :=
  match s with
  | Some (Json (VArray items)) => valid_items items
  | _ => []
  end.

(** The text [saveGallery] writes. *)
Definition text_of (gallery : list SavedArtwork) : text :=
  JSON_stringify (VArray (map to_value gallery)).

(** Calls that change the stored text. *)
Definition writes (e : event) : bool :=
  match e with
  | SetItem _ | RemoveItem => true
  | _ => false
  end.

(** Calls that touch local storage at all. *)
Definition touches_storage (e : event) : bool :=
  match e with
  | GetItem | SetItem _ | RemoveItem => true
  | _ => false
  end.

(** Console lines only. *)
Definition console_only (evs : list event) : Prop :=
  forallb (fun e => negb (touches_storage e)) evs = true.

(** From [w] to [w'] the stored text is the same and neither [setItem] nor
    [removeItem] was called. *)
Definition read_only (w w' : world) : Prop :=
  stored w' = stored w /\
  exists evs, events w' = events w ++ evs /\
              forallb (fun e => negb (writes e)) evs = true.

(** Every record has a finite identifier, as validated records do. *)
Definition finite_ids (g : list SavedArtwork) : Prop :=
  Forall (fun a => isFinite (id a) = true) g.

(** No two records of the collection have [===] identifiers. *)
Fixpoint unique_ids (g : list SavedArtwork) : bool :=
  match g with
  | [] => true
  | a :: rest =>
      negb (existsb (fun item => number_eq (id item) (id a)) rest)
      && unique_ids rest
  end.

(** The record [addToGallery] builds from an artwork. *)
Definition saved_of (artwork : Artwork.t) : SavedArtwork :=
  mkSavedArtwork (Artwork.id artwork) (Artwork.title artwork)
    (Artwork.artist_title artwork) (Artwork.image_id artwork)
    (Artwork.date_display artwork) (Artwork.medium_display artwork)
    (Artwork.place_of_origin artwork) (Artwork.dimensions artwork) "".

(** [addToGallery] called on each artwork of a list, whatever each call
    returns or throws. *)
Fixpoint add_all (quota : text -> bool) (artworks : list Artwork.t) (w : world)
  : world :=
  match artworks with
  | [] => w
  | a :: rest => add_all quota rest (snd (addToGallery quota a w))
  end.

(** The collection with the note of its first record bearing [aid] replaced. *)
Fixpoint set_first_note (aid : number) (n : string) (g : list SavedArtwork)
  : list SavedArtwork :=
  match g with
  | [] => []
  | x :: rest =>
      if number_eq (id x) aid then with_note x n :: rest
      else x :: set_first_note aid n rest
  end.

(** A value is a finite number. *)
Definition is_number (v : value) : bool :=
  match v with VNumber n => isFinite n | _ => false end.

(** A property that is there and is not a string. *)
Definition present_not_string (v : value) : bool :=
  match v with VUndefined | VString _ => false | _ => true end.

(** A property that is there and is neither a string nor [null]. *)
Definition present_not_string_or_null (v : value) : bool :=
  match v with VUndefined | VNull | VString _ => false | _ => true end.

(** The values [ArtworkSchema] turns down, said in one condition. *)
Definition ArtworkSchema_rejects (v : value) : bool :=
  match v with
  | VObject o =>
      negb (is_number (get o "id"))
      || present_not_string (get o "title")
      || present_not_string_or_null (get o "artist_title")
      || present_not_string_or_null (get o "image_id")
      || present_not_string_or_null (get o "date_display")
      || present_not_string_or_null (get o "medium_display")
      || present_not_string_or_null (get o "place_of_origin")
      || present_not_string_or_null (get o "dimensions")
  | _ => true
  end.

(** A note of [k] characters. *)
Fixpoint note_of_length (k : nat) : string :=
  match k with
  | O => ""
  | S k' => String "x"%char (note_of_length k')
  end.

(** A browser that accepts every write. *)
Definition unlimited : text -> bool := fun _ => true.

(** A browser whose storage is full: every write is refused. *)
Definition storage_full : text -> bool := fun _ => false.

(** Nothing stored yet. *)
Definition empty_storage : world := World None [].

(** An artwork as the catalog client hands it over. *)
Definition starry_night : Artwork.t :=
  Artwork.mk (int 1) "Starry Night" (NotNull "Van Gogh") Null
    Undefined Undefined Undefined Undefined.

(** The gallery after [starry_night] was saved. *)
Definition one_saved : world :=
  World (Some (text_of [saved_of starry_night])) [].

(** What [ArtworkSchema] makes of an object that has an [id] only. *)
Definition only_id : Artwork.t :=
  Artwork.mk (int 1) Unbekannter_Titel (NotNull Unbekannter_Kuenstler) Null
    Undefined Undefined Undefined Undefined.

(** The record of [starry_night] as a JSON object, with a note. *)
Definition starry_json (n : string) : value :=
  VObject [("id", VNumber (int 1)); ("title", VString "Starry Night");
           ("artist_title", VString "Van Gogh"); ("image_id", VNull);
           ("note", VString n)].

(** One well-formed record and one record without [id]. *)
Definition one_corrupt : world :=
  World (Some (Json (VArray [starry_json "";
                             VObject [("title", VString "no id")]]))) [].

(** The same record stored twice, with different notes. *)
Definition stored_twice : world :=
  World (Some (Json (VArray [starry_json "first"; starry_json "second"]))) [].

(** * More of the code

    The rest of the store's file ([isInGallery], [clearGallery]), the
    other schemas, and the callers of the store: the handlers of
    [Gallery.tsx] and [NoteEditor.tsx] and the requests of [artworkApi.ts].

    - A component's handler is code over the component's state, the browser
      and exceptions (type [C]); a state hook is a field of the state and
      its setter.
    - The requests are [async]; the network is a function from the address
      to what [fetch] gives, and the texts only a library knows (a number
      as text, the text of a [URL], the message of a library exception) are
      parameters. *)

(** ** Runs of the store *)

(** One call of a mutating store function. *)
Inductive operation : Type :=
| Add (artwork : Artwork.t)
| Update (artworkId : number) (n : string)
| Remove (artworkId : number)
| Clear.

(** The browser after the call, whatever it returned or threw. *)
Definition perform (quota : text -> bool) (removable : bool) (op : operation)
           (w : world) : world :=
  match op with
  | Add a => snd (addToGallery quota a w)
  | Update i n => snd (updateNote quota i n w)
  | Remove i => snd (removeFromGallery quota i w)
  | Clear => snd (clearGallery removable w)
  end.

Fixpoint perform_all (quota : text -> bool) (removable : bool)
         (ops : list operation) (w : world) : world :=
  match ops with
  | [] => w
  | op :: rest => perform_all quota removable rest (perform quota removable op w)
  end.

(** Every note has at most 500 characters. *)
Definition notes_within_limit (g : list SavedArtwork) : bool :=
  forallb (fun item => (String.length (note item) <=? 500)%nat) g.

(** Another artwork, without an artist. *)
Definition water_lilies : Artwork.t :=
  Artwork.mk (int 2) "Water Lilies" Null (NotNull "img-2")
    (Defined (NotNull "1906")) Undefined (Defined Null) Undefined.

(** Two records stored, the second with a note. *)
Definition two_saved : world :=
  World (Some (text_of [saved_of starry_night;
                        with_note (saved_of water_lilies) "calm"])) [].

(** ** The schemas, said in one condition *)

Definition is_string (v : value) : bool :=
  match v with VString _ => true | _ => false end.

Definition is_string_or_null (v : value) : bool :=
  match v with VString _ | VNull => true | _ => false end.

(** The values [SavedArtworkSchema] turns down. *)
Definition SavedArtworkSchema_rejects (v : value) : bool :=
  match v with
  | VObject o =>
      negb (is_number (get o "id"))
      || negb (is_string (get o "title"))
      || negb (is_string_or_null (get o "artist_title"))
      || negb (is_string_or_null (get o "image_id"))
      || present_not_string_or_null (get o "date_display")
      || present_not_string_or_null (get o "medium_display")
      || present_not_string_or_null (get o "place_of_origin")
      || present_not_string_or_null (get o "dimensions")
      || present_not_string (get o "note")
  | _ => true
  end.

(** A note [NoteSchema] lets through: none, or a string of at most 500
    characters. *)
Definition note_allowed (v : value) : bool :=
  match v with
  | VUndefined => true
  | VString s => (String.length s <=? 500)%nat
  | _ => false
  end.

(** The object the note editor hands to [NoteSchema]. *)
Definition note_input (artworkId : number) (n : string) : value :=
  VObject [("artworkId", VNumber artworkId); ("note", VString n)].

(** ** Components: state, storage and exceptions together *)

(** Code of a component: it reads and sets the component's state of type
    [S], runs store functions on the browser, and may throw.  What was set
    before a throw stays set. *)
Definition C (S A : Type) : Type := S -> world -> outcome A * S * world.

Definition cret {S A} (a : A) : C S A := fun s w => (Return a, s, w).

Definition cthrow {S A} (e : exn) : C S A := fun s w => (Throw e, s, w).

Definition cbind {S A B} (m : C S A) (k : A -> C S B) : C S B := fun s w =>
  match m s w with
  | (Return a, s', w') => k a s' w'
  | (Throw e, s', w') => (Throw e, s', w')
  end.

Definition ctry {S A} (body : C S A) (handler : exn -> C S A) : C S A :=
  fun s w =>
    match body s w with
    | (Return a, s', w') => (Return a, s', w')
    | (Throw e, s', w') => handler e s' w'
    end.

(** A store function called from a component. *)
Definition call {S A} (m : M A) : C S A := fun s w =>
  match m w with (o, w') => (o, s, w') end.

(** The state as the handler sees it: the one of the render it belongs to.
    No handler below reads a variable after it has set it. *)
Definition current {S} : C S S := fun s w => (Return s, s, w).

(** A state setter. *)
Definition set {S} (f : S -> S) : C S unit := fun s w => (Return tt, f s, w).

Declare Scope component_scope.
Delimit Scope component_scope with C.
Notation "x <- m ;; k" := (cbind m (fun x => k))
  (at level 61, m at next level, right associativity) : component_scope.
Notation "m ;; k" := (cbind m (fun _ => k))
  (at level 61, right associativity) : component_scope.

(** ** Gallery.tsx *)

Module Gallery.

Record State : Type := mkState {
  gallery : list SavedArtwork;
  editingArtwork : option (number * string);
  error : option string
}.

Definition setGallery (g : list SavedArtwork) : C State unit :=
  set (fun st => mkState g (editingArtwork st) (error st)).

Definition setEditingArtwork (e : option (number * string)) : C State unit :=
  set (fun st => mkState (gallery st) e (error st)).

Definition setError (e : option string) : C State unit :=
  set (fun st => mkState (gallery st) (editingArtwork st) e).

Definition loadGalleryData : C State unit :=
  ctry
    (savedArtworks <- call loadGallery ;;
     setGallery savedArtworks ;;
     setError None)%C
    (fun err =>
       call (console_error "Fehler beim Laden der Galerie:" (Some err)) ;;
       setError (Some "Galerie konnte nicht geladen werden"))%C.

Section Handlers.

Variable quota : text -> bool.

Definition handleRemoveFromGallery (artworkId : number) : C State unit :=
  (st <- current ;;
   ctry
     (success <- call (removeFromGallery quota artworkId) ;;
      if success then
        loadGalleryData ;;
        match editingArtwork st with
        | Some (editing_id, _) =>
            if number_eq editing_id artworkId then setEditingArtwork None
            else cret tt
        | None => cret tt
        end
      else cret tt)
     (fun err =>
        call (console_error "Fehler beim Entfernen aus der Galerie:" (Some err)) ;;
        setError (Some "Kunstwerk konnte nicht entfernt werden")))%C.

Definition handleEditNote (artworkId : number) (currentNote : string)
  : C State unit :=
  setEditingArtwork (Some (artworkId, currentNote)).

Definition handleSaveNote (artworkId : number) (n : string) : C State unit :=
  ctry
    (success <- call (updateNote quota artworkId n) ;;
     if success then
       loadGalleryData ;;
       setEditingArtwork None ;;
       setError None
     else cret tt)%C
    (fun err =>
       call (console_error "Fehler beim Speichern der Notiz:" (Some err)) ;;
       setError (Some "Notiz konnte nicht gespeichert werden"))%C.

Definition handleCancelEdit : C State unit :=
  setEditingArtwork None.

End Handlers.

End Gallery.

(** ** NoteEditor.tsx *)

Module NoteEditor.

Record State : Type := mkState {
  note : string;
  validationError : option string
}.

Definition MAX_NOTE_LENGTH : Z := 500.

Section Component.

(** The state of the component that renders the editor, and the props. *)
Variable P : Type.
Variable artworkId : number.
Variable currentNote : string.
Variable onSave : number -> string -> C P unit.
Variable onCancel : C P unit.

(** Zod's own text for an issue that has no custom message. *)
Variable default_message : issue -> string.

(** [issue.message]. *)
Definition message (i : issue) : string :=
  match code i with
  | too_big _ custom => custom
  | invalid_type _ => default_message i
  end.

Definition setNote (n : string) : C (State * P) unit :=
  set (fun st => (mkState n (validationError (fst st)), snd st)).

Definition setValidationError (e : option string) : C (State * P) unit :=
  set (fun st => (mkState (note (fst st)) e, snd st)).

(** A callback of the parent, run on the parent's state. *)
Definition parent {A} (c : C P A) : C (State * P) A := fun st w =>
  match c (snd st) w with
  | (o, p', w') => (o, (fst st, p'), w')
  end.

(** The [catch] of both handlers: a [ZodError] shows its first message,
    any other exception is dropped. *)
Definition show_validation_error (err : exn) : C (State * P) unit :=
  match err with
  | ZodError issues =>
      match issues with
      | first :: _ => setValidationError (Some (message first))
      | [] => cthrow TypeError
      end
  | _ => cret tt
  end.

Definition handleNoteChange (newNote : string) : C (State * P) unit :=
  (setNote newNote ;;
   ctry
     (call (parse NoteSchema (note_input artworkId newNote)) ;;
      setValidationError None)
     show_validation_error)%C.

Definition handleSave : C (State * P) unit :=
  (st <- current ;;
   ctry
     (call (parse NoteSchema (note_input artworkId (note (fst st)))) ;;
      parent (onSave artworkId (note (fst st))) ;;
      setValidationError None)
     show_validation_error)%C.

Definition handleCancel : C (State * P) unit :=
  (setNote currentNote ;;
   setValidationError None ;;
   parent onCancel)%C.

(** [MAX_NOTE_LENGTH - note.length]. *)
Definition remainingChars (st : State) : Z :=
  MAX_NOTE_LENGTH - Z.of_nat (String.length (note st)).

(** The class of the character counter. *)
Definition counter_class (st : State) : string :=
  if (remainingChars st <? 50)%Z then "text-warning"
  else if (remainingChars st <? 0)%Z then "text-error"
  else "text-base-content/60".

(** [disabled] of the save button. *)
Definition save_disabled (st : State) : bool :=
  match validationError st with
  | Some "" | None => false
  | Some _ => true
  end
  || (MAX_NOTE_LENGTH <? Z.of_nat (String.length (note st)))%Z.

End Component.

End NoteEditor.

(** ** artworkSchema.ts: the answer of the API *)

From Stdlib Require DecimalString.

(** An index as a path element. *)
Definition index_key (i : nat) : string :=
  DecimalString.NilZero.string_of_uint (Nat.to_uint i).

(** The elements of a [z.array], from index [i] on: each is parsed, the
    issues of all are collected under their index. *)
Fixpoint array_items {A} (s : schema A) (i : nat) (items : list value)
  : result (list A) :=
  match items with
  | [] => Ok []
  | item :: rest =>
      Ok cons
        <*> match s item with
            | Ok a => Ok a
            | Err e => Err (map (fun x => Issue (code x) (index_key i :: path x)) e)
            end
        <*> array_items s (S i) rest
  end.

(** [z.array(s)]. *)
Definition z_array {A} (s : schema A) : schema (list A) := fun v =>
  match v with
  | VArray items => array_items s 0 items
  | _ => Err [Issue (invalid_type "array") []]
  end.

Module Pagination.

Record t : Type := mk {
  total : number;
  limit : number;
  offset : number;
  total_pages : number;
  current_page : number
}.

End Pagination.

(** The [pagination] object of [ArtworkAPIResponseSchema]. *)
Definition PaginationSchema : schema Pagination.t := fun v =>
  match v with
  | VObject o =>
      Ok Pagination.mk
        <*> z.field o "total" z.number
        <*> z.field o "limit" z.number
        <*> z.field o "offset" z.number
        <*> z.field o "total_pages" z.number
        <*> z.field o "current_page" z.number
  | _ => Err [Issue (invalid_type "object") []]
  end.

Module ArtworkAPIResponse.

Record t : Type := mk {
  data : list Artwork.t;
  pagination : Optional Pagination.t
}.

End ArtworkAPIResponse.

Definition ArtworkAPIResponseSchema : schema ArtworkAPIResponse.t := fun v =>
  match v with
  | VObject o =>
      Ok ArtworkAPIResponse.mk
        <*> z.field o "data" (z_array ArtworkSchema)
        <*> z.field o "pagination" (z.optional PaginationSchema)
  | _ => Err [Issue (invalid_type "object") []]
  end.

(** A [pagination] the schema lets through: none, or an object with its
    five finite numbers. *)
Definition pagination_allowed (v : value) : bool :=
  match v with
  | VUndefined => true
  | VObject p =>
      is_number (get p "total") && is_number (get p "limit")
      && is_number (get p "offset") && is_number (get p "total_pages")
      && is_number (get p "current_page")
  | _ => false
  end.

(** ** artworkApi.ts: the image address *)

Definition AIC_API_BASE_URL : string := "https://api.artic.edu/api/v1".

Definition AIC_IMAGE_BASE_URL : string := "https://www.artic.edu/iiif/2".

Section ImageUrl.

(** A number written into a template string. *)
Variable Number_toString : number -> string.

(** [size] is 843 when the caller leaves it out. *)
Definition getImageUrl (imageId : Nullable string) (size : Optional number)
  : Nullable string :=
  let size := match size with Undefined => int 843 | Defined s => s end in
  match imageId with
  | Null => Null
  | NotNull "" => Null
  | NotNull i =>
      NotNull (AIC_IMAGE_BASE_URL ++ "/" ++ i ++ "/full/"
                 ++ Number_toString size ++ ",/0/default.jpg")%string
  end.

End ImageUrl.

(** ** artworkApi.ts: the requests *)

(** The functions are [async]; each awaits one step after the other, so a
    call is a sequence of steps that ends in a result (the promise
    resolves) or in an exception (it rejects).  The network is a function
    from the address asked for to what comes back. *)

Module Api.

Inductive event : Type :=
| Fetch (url : string)
| ConsoleError (label message : string).

(** What [fetch] resolves to; [body] is the JSON of the answer, if it is
    JSON. *)
Record Response : Type := mkResponse {
  ok : bool;
  status : number;
  statusText : string;
  body : option value
}.

(** [fetch] rejects (no connection) or resolves. *)
Inductive fetched : Type :=
| Fails
| Answers (r : Response).

Definition T (A : Type) : Type := list event -> outcome A * list event.

Definition ret {A} (a : A) : T A := fun log => (Return a, log).

Definition throw {A} (e : exn) : T A := fun log => (Throw e, log).

Definition bind {A B} (m : T A) (k : A -> T B) : T B := fun log =>
  match m log with
  | (Return a, log') => k a log'
  | (Throw e, log') => (Throw e, log')
  end.

Definition try_catch {A} (body : T A) (handler : exn -> T A) : T A := fun log =>
  match body log with
  | (Return a, log') => (Return a, log')
  | (Throw e, log') => handler e log'
  end.

Definition console_error (label message : string) : T unit := fun log =>
  (Return tt, log ++ [ConsoleError label message]).

Declare Scope api_scope.
Delimit Scope api_scope with api.
Notation "x <- m ;; k" := (bind m (fun x => k))
  (at level 61, m at next level, right associativity) : api_scope.
Notation "m ;; k" := (bind m (fun _ => k))
  (at level 61, right associativity) : api_scope.

Record SearchResult : Type := mkSearchResult {
  data : list Artwork.t;
  total : value;
  offset : number;
  limit : number
}.

(** A white-space character of [String.prototype.trim], among the code
    units a [string] has here. *)
Definition is_whitespace (c : ascii) : bool :=
  existsb (Nat.eqb (nat_of_ascii c)) [9; 10; 11; 12; 13; 32; 160]%nat.

(** [!query.trim()]. *)
Fixpoint blank (s : string) : bool :=
  match s with
  | EmptyString => true
  | String c rest => is_whitespace c && blank rest
  end.

(** A value in a condition. *)
Definition truthy (v : value) : bool :=
  match v with
  | VUndefined | VNull => false
  | VBool b => b
  | VNumber NaN => false
  | VNumber (Finite q) => negb (Qeq_bool q 0)
  | VNumber _ => true
  | VString s => negb (String.eqb s "")
  | VArray _ | VObject _ => true
  end.

(** [v.key] for one of the keys read here ([data], [pagination],
    [total]): a [TypeError] on [null] and [undefined], [undefined] on what
    has no such property. *)
Definition member (v : value) (key : string) : T value :=
  match v with
  | VObject o => ret (get o key)
  | VUndefined | VNull => throw TypeError
  | _ => ret VUndefined
  end.

(** [error instanceof Error]: every exception met here is one. *)
Definition instanceof_Error (e : exn) : bool := true.

Definition fields : string :=
  String.concat ","
    ["id"; "title"; "artist_title"; "image_id"; "date_display";
     "medium_display"; "place_of_origin"; "dimensions"].

Section Requests.

(** A number written into a text, the text of a [URL] with its search
    parameters, the message of an exception that is not a plain [Error],
    and the network. *)
Variable Number_toString : number -> string.
Variable URL_toString : string -> list (string * string) -> string.
Variable library_message : exn -> string.
Variable network : string -> fetched.

(** [error.message]. *)
Definition message (e : exn) : string :=
  match e with
  | Error m => m
  | _ => library_message e
  end.

Definition fetch (url : string) : T Response := fun log =>
  match network url with
  | Fails => (Throw TypeError, log ++ [Fetch url])
  | Answers r => (Return r, log ++ [Fetch url])
  end.

(** [response.json()]. *)
Definition json (r : Response) : T value :=
  match body r with
  | Some v => ret v
  | None => throw SyntaxError
  end.

Definition api_parse {A} (s : schema A) (v : value) : T A :=
  match s v with
  | Ok a => ret a
  | Err e => throw (ZodError e)
  end.

Definition search_url (query : string) (limit offset : number) : string :=
  URL_toString (AIC_API_BASE_URL ++ "/artworks/search")%string
    [("q", query); ("limit", Number_toString limit);
     ("offset", Number_toString offset); ("fields", fields)].

Definition searchArtworks (query : string) (limit offset : Optional number)
  : T SearchResult :=
  let limit := match limit with Undefined => int 20 | Defined l => l end in
  let offset := match offset with Undefined => int 0 | Defined o => o end in
  try_catch
    (if blank query then
       ret (mkSearchResult [] (VNumber (int 0)) offset limit)
     else
       response <- fetch (search_url query limit offset) ;;
       (if negb (ok response) then
          throw (Error ("API-Anfrage fehlgeschlagen: "
                          ++ Number_toString (status response) ++ " "
                          ++ statusText response)%string)
        else ret tt) ;;
       json <- json response ;;
       validatedResponse <- api_parse ArtworkAPIResponseSchema json ;;
       pagination <- member json "pagination" ;;
       total <- match pagination with
                | VUndefined | VNull => ret VUndefined
                | _ => member pagination "total"
                end ;;
       ret (mkSearchResult (ArtworkAPIResponse.data validatedResponse)
              (if truthy total then total else VNumber (int 0))
              offset limit))%api
    (fun error =>
       if instanceof_Error error then
         console_error "Fehler beim Abrufen der Kunstwerke:" (message error) ;;
         throw (Error ("Kunstwerke konnten nicht geladen werden: "
                         ++ message error)%string)
       else throw (Error "Ein unbekannter Fehler ist aufgetreten"))%api.

Definition artwork_url (artworkId : number) : string :=
  (AIC_API_BASE_URL ++ "/artworks/" ++ Number_toString artworkId
     ++ "?fields=" ++ fields)%string.

(** The result is [validatedArtwork.data[0]]. *)
Definition getArtworkById (artworkId : number) : T (Optional Artwork.t) :=
  try_catch
    (response <- fetch (artwork_url artworkId) ;;
     (if negb (ok response) then
        throw (Error ("API-Anfrage fehlgeschlagen: "
                        ++ Number_toString (status response) ++ " "
                        ++ statusText response)%string)
      else ret tt) ;;
     json <- json response ;;
     artwork <- member json "data" ;;
     validatedArtwork <-
       api_parse ArtworkAPIResponseSchema (VObject [("data", VArray [artwork])]) ;;
     ret (match ArtworkAPIResponse.data validatedArtwork with
          | first :: _ => Defined first
          | [] => Undefined
          end))%api
    (fun error =>
       if instanceof_Error error then
         console_error "Fehler beim Abrufen des Kunstwerks:" (message error) ;;
         throw (Error ("Kunstwerk konnte nicht geladen werden: "
                         ++ message error)%string)
       else throw (Error "Ein unbekannter Fehler ist aufgetreten"))%api.

End Requests.

End Api.

(** [json.pagination?.total || 0] for an answer the schema has accepted. *)
Definition total_of (answer : value) : value :=
  match answer with
  | VObject o =>
      match get o "pagination" with
      | VObject p =>
          if Api.truthy (get p "total") then get p "total" else VNumber (int 0)
      | _ => VNumber (int 0)
      end
  | _ => VNumber (int 0)
  end.

(** A network without connection, one that answers with a server error,
    and one that answers a search with one artwork of three found. *)
Definition offline : string -> Api.fetched := fun _ => Api.Fails.

Definition server_error : string -> Api.fetched := fun _ =>
  Api.Answers (Api.mkResponse false (int 500) "Internal Server Error" None).

Definition one_found : string -> Api.fetched := fun _ =>
  Api.Answers
    (Api.mkResponse true (int 200) "OK"
       (Some (VObject
                [("data", VArray [VObject [("id", VNumber (int 1));
                                           ("title", VString "Starry Night");
                                           ("artist_title", VString "Van Gogh")]]);
                 ("pagination",
                  VObject [("total", VNumber (int 3)); ("limit", VNumber (int 20));
                           ("offset", VNumber (int 0));
                           ("total_pages", VNumber (int 1));
                           ("current_page", VNumber (int 1))])]))).

(** Stand-ins for the library's texts in concrete runs. *)
Definition plain_number : number -> string := fun _ => "n".

Definition plain_url : string -> list (string * string) -> string :=
  fun base _ => base.

Definition plain_message : exn -> string := fun _ => "library error".

(** * Properties *)

(** ** Schemas *)

Lemma ap_is_ok {A B} (f : result (A -> B)) (x : result A) :
  is_ok (f <*> x) = is_ok f && is_ok x.
Proof. destruct f, x; reflexivity. Qed.

Lemma ap_Ok_inv {A B} (f : result (A -> B)) (x : result A) (b : B) :
  f <*> x = Ok b -> exists g a, f = Ok g /\ x = Ok a /\ b = g a.
Proof.
  destruct f as [g|e], x as [a|e']; simpl; intros H; try discriminate.
  inversion H; subst. exists g, a. auto.
Qed.

Lemma field_is_ok {A} o key (s : schema A) :
  is_ok (z.field o key s) = is_ok (s (get o key)).
Proof. unfold z.field. destruct (s (get o key)); reflexivity. Qed.

Lemma field_Ok_inv {A} o key (s : schema A) (a : A) :
  z.field o key s = Ok a -> s (get o key) = Ok a.
Proof. unfold z.field. destruct (s (get o key)); intros H; now inversion H. Qed.

Lemma field_Ok {A} o key (s : schema A) (a : A) :
  s (get o key) = Ok a -> z.field o key s = Ok a.
Proof. unfold z.field. now intros ->. Qed.

Ltac invert_ap H :=
  repeat (apply ap_Ok_inv in H;
          let g := fresh "g" in let a := fresh "a" in
          let Hx := fresh "Hfield" in let Hb := fresh "Hb" in
          destruct H as (g & a & H & Hx & Hb); apply field_Ok_inv in Hx; subst).

(** What an accepted saved record was read from, field by field. *)
Lemma SavedArtworkSchema_Ok_inv o a :
  SavedArtworkSchema (VObject o) = Ok a ->
  z.number (get o "id") = Ok (id a) /\
  z.string (get o "title") = Ok (title a) /\
  z.nullable z.string (get o "artist_title") = Ok (artist_title a) /\
  z.nullable z.string (get o "image_id") = Ok (image_id a) /\
  z.optional (z.nullable z.string) (get o "date_display") = Ok (date_display a) /\
  z.optional (z.nullable z.string) (get o "medium_display") = Ok (medium_display a) /\
  z.optional (z.nullable z.string) (get o "place_of_origin") = Ok (place_of_origin a) /\
  z.optional (z.nullable z.string) (get o "dimensions") = Ok (dimensions a) /\
  z.default "" z.string (get o "note") = Ok (note a).
Proof.
  unfold SavedArtworkSchema. intros H. invert_ap H.
  inversion H; subst; simpl. repeat split; assumption.
Qed.

Lemma SavedArtworkSchema_Ok_intro o a :
  z.number (get o "id") = Ok (id a) ->
  z.string (get o "title") = Ok (title a) ->
  z.nullable z.string (get o "artist_title") = Ok (artist_title a) ->
  z.nullable z.string (get o "image_id") = Ok (image_id a) ->
  z.optional (z.nullable z.string) (get o "date_display") = Ok (date_display a) ->
  z.optional (z.nullable z.string) (get o "medium_display") = Ok (medium_display a) ->
  z.optional (z.nullable z.string) (get o "place_of_origin") = Ok (place_of_origin a) ->
  z.optional (z.nullable z.string) (get o "dimensions") = Ok (dimensions a) ->
  z.default "" z.string (get o "note") = Ok (note a) ->
  SavedArtworkSchema (VObject o) = Ok a.
Proof.
  intros H1 H2 H3 H4 H5 H6 H7 H8 H9. unfold SavedArtworkSchema.
  rewrite (field_Ok _ _ _ _ H1), (field_Ok _ _ _ _ H2), (field_Ok _ _ _ _ H3),
    (field_Ok _ _ _ _ H4), (field_Ok _ _ _ _ H5), (field_Ok _ _ _ _ H6),
    (field_Ok _ _ _ _ H7), (field_Ok _ _ _ _ H8), (field_Ok _ _ _ _ H9).
  destruct a; reflexivity.
Qed.

Lemma ArtworkSchema_Ok_inv o a :
  ArtworkSchema (VObject o) = Ok a ->
  z.number (get o "id") = Ok (Artwork.id a) /\
  z.default Unbekannter_Titel z.string (get o "title") = Ok (Artwork.title a) /\
  z.default (NotNull Unbekannter_Kuenstler) (z.nullable z.string)
    (get o "artist_title") = Ok (Artwork.artist_title a) /\
  z.default Null (z.nullable z.string) (get o "image_id") = Ok (Artwork.image_id a).
Proof.
  unfold ArtworkSchema. intros H. invert_ap H.
  inversion H; subst; simpl. repeat split; assumption.
Qed.

Lemma z_number_Ok_finite v n : z.number v = Ok n -> isFinite n = true.
Proof.
  unfold z.number. destruct v; try discriminate.
  destruct (isFinite n0) eqn:E; intros H; inversion H; subst; exact E.
Qed.

(** A validated record carries a finite identifier. *)
Lemma SavedArtworkSchema_finite v a :
  SavedArtworkSchema v = Ok a -> isFinite (id a) = true.
Proof.
  destruct v; try discriminate. intros H.
  apply SavedArtworkSchema_Ok_inv in H. destruct H as [H _].
  exact (z_number_Ok_finite _ _ H).
Qed.

Lemma get_absent props k :
  ~ In k (map fst props) -> get props k = VUndefined.
Proof.
  induction props as [|[k' x] rest IH]; simpl; auto.
  intros H. destruct (String.eqb_spec k' k) as [->|_].
  - elim H. now left.
  - apply IH. intros Hin. apply H. now right.
Qed.

(** Reading a property of an object that went through JSON: what was
    [undefined] is absent, anything else is its own JSON. *)
Lemma get_jsonify props :
  NoDup (map fst props) ->
  exists props',
    jsonify (VObject props) = VObject props' /\
    forall k, get props' k =
              match get props k with
              | VUndefined => VUndefined
              | x => jsonify x
              end.
Proof.
  intros ND. eexists. split; [reflexivity|]. intros k.
  induction props as [|[k' x] rest IH]; [reflexivity|].
  inversion ND as [|? ? Hnotin ND']; subst.
  cbn [flat_map get]. destruct (String.eqb_spec k' k) as [->|Hne].
  - destruct x; cbn [app get]; rewrite ?String.eqb_refl; try reflexivity.
    rewrite (IH ND'), (get_absent rest k Hnotin). reflexivity.
  - destruct x; cbn [app get];
      try (destruct (String.eqb_spec k' k) as [|_]; [contradiction|]);
      exact (IH ND').
Qed.

Lemma to_value_keys a :
  exists props, to_value a = VObject props /\ NoDup (map fst props) /\
    get props "id" = VNumber (id a) /\
    get props "title" = VString (title a) /\
    get props "artist_title" = of_nullable (artist_title a) /\
    get props "image_id" = of_nullable (image_id a) /\
    get props "date_display" = of_optional (date_display a) /\
    get props "medium_display" = of_optional (medium_display a) /\
    get props "place_of_origin" = of_optional (place_of_origin a) /\
    get props "dimensions" = of_optional (dimensions a) /\
    get props "note" = VString (note a).
Proof.
  eexists. split; [reflexivity|]. split; [|repeat split].
  cbn [map fst].
  repeat (constructor; [cbn [In]; intuition discriminate|]). constructor.
Qed.

Lemma nullable_after_json n :
  z.nullable z.string
    (match of_nullable n with VUndefined => VUndefined | x => jsonify x end) =
  Ok n.
Proof. destruct n; reflexivity. Qed.

Lemma optional_after_json d :
  z.optional (z.nullable z.string)
    (match of_optional d with VUndefined => VUndefined | x => jsonify x end) =
  Ok d.
Proof. destruct d as [|[|]]; reflexivity. Qed.

(** A record read back from its own JSON text is the same record. *)
Lemma SavedArtworkSchema_jsonify a :
  isFinite (id a) = true -> SavedArtworkSchema (jsonify (to_value a)) = Ok a.
Proof.
  intros Hi.
  destruct (to_value_keys a)
    as (props & -> & ND & G1 & G2 & G3 & G4 & G5 & G6 & G7 & G8 & G9).
  destruct (get_jsonify props ND) as (props' & -> & G).
  apply SavedArtworkSchema_Ok_intro; rewrite G;
    rewrite ?G1, ?G2, ?G3, ?G4, ?G5, ?G6, ?G7, ?G8, ?G9;
    auto using nullable_after_json, optional_after_json.
  cbn [jsonify]. rewrite Hi. unfold z.number. now rewrite Hi.
Qed.

Lemma optional_of_optional d :
  z.optional (z.nullable z.string) (of_optional d) = Ok d.
Proof. destruct d as [|[|]]; reflexivity. Qed.

Lemma nullable_of_nullable n : z.nullable z.string (of_nullable n) = Ok n.
Proof. destruct n; reflexivity. Qed.

(** A typed record always passes its own schema. *)
Lemma SavedArtworkSchema_to_value a :
  isFinite (id a) = true -> SavedArtworkSchema (to_value a) = Ok a.
Proof.
  intros Hi. unfold to_value.
  apply SavedArtworkSchema_Ok_intro; cbn [get String.eqb Ascii.eqb Bool.eqb];
    auto using optional_of_optional, nullable_of_nullable.
  unfold z.number. now rewrite Hi.
Qed.

Lemma SavedArtworkSchema_not_finite a :
  isFinite (id a) = false -> is_ok (SavedArtworkSchema (to_value a)) = false.
Proof.
  intros Hi. unfold SavedArtworkSchema, to_value.
  rewrite !ap_is_ok, !field_is_ok.
  cbn [get String.eqb Ascii.eqb Bool.eqb]. unfold z.number at 1.
  rewrite Hi. reflexivity.
Qed.

(** ** Reading the gallery *)

Lemma console_only_app evs evs' :
  console_only evs -> console_only evs' -> console_only (evs ++ evs').
Proof. unfold console_only. rewrite forallb_app. now intros -> ->. Qed.

Lemma console_only_no_write evs :
  console_only evs -> forallb (fun e => negb (writes e)) evs = true.
Proof.
  unfold console_only. rewrite !forallb_forall. intros H e He.
  specialize (H e He). now destruct e.
Qed.

Lemma validate_each_run items w :
  exists rs evs,
    validate_each items w = (Return rs, World (stored w) (events w ++ evs)) /\
    not_null rs = valid_items items /\
    console_only evs.
Proof.
  revert w. induction items as [|item rest IH]; intros w.
  - exists [], []. simpl. rewrite app_nil_r. destruct w. repeat split.
  - simpl. unfold bind at 1, try_catch, bind at 1, parse.
    destruct (SavedArtworkSchema item) as [a|e] eqn:E.
    + unfold ret at 1 2. cbv beta iota.
      destruct (IH w) as (rs & evs & R & N & C).
      exists (Some a :: rs), evs. unfold bind. rewrite R. unfold ret.
      simpl. rewrite N. auto.
    + unfold throw. cbv beta iota. unfold bind at 2, console_error, emit.
      cbv beta iota. unfold ret at 1. cbv beta iota.
      destruct (IH (World (stored w)
                      (events w ++ [ConsoleError "Ungültiges Artwork in Galerie:"
                                      (Some (ZodError e))])))
        as (rs & evs & R & N & C).
      exists (None :: rs),
        (ConsoleError "Ungültiges Artwork in Galerie:" (Some (ZodError e)) :: evs).
      unfold bind. rewrite R. unfold ret. simpl. simpl in N.
      rewrite <- app_assoc. simpl. repeat split; auto.
  Qed.

(** [loadGallery] always returns, gives the decoded collection, reads the
    store once and leaves it as it was. *)
Lemma loadGallery_run w :
  exists evs,
    loadGallery w =
      (Return (decode (stored w)), World (stored w) (events w ++ GetItem :: evs)) /\
    console_only evs.
Proof.
  unfold loadGallery, try_catch, bind at 1, localStorage_getItem.
  cbv beta iota.
  destruct (stored w) as [[| |v]|] eqn:S; simpl.
  - exists []. split; reflexivity.
  - exists [ConsoleError "Fehler beim Laden der Galerie:" (Some SyntaxError)].
    unfold bind, JSON_parse, throw, console_error, emit, ret. simpl.
    rewrite <- app_assoc. split; reflexivity.
  - unfold bind at 1, JSON_parse, ret at 1. cbv beta iota.
    destruct v;
      try (exists [ConsoleError "Gespeicherte Galerie-Daten sind kein Array" None];
           unfold bind, console_error, emit, ret; simpl;
           rewrite <- app_assoc; split; reflexivity).
    destruct (validate_each_run items (World (Some (Json (VArray items)))
                                         (events w ++ [GetItem])))
      as (rs & evs & R & N & C).
    exists evs. unfold bind. rewrite R. unfold ret. simpl.
    rewrite N, <- app_assoc. split; [reflexivity | exact C].
  - exists []. split; reflexivity.
Qed.

Lemma loadGallery_result w : fst (loadGallery w) = Return (decode (stored w)).
Proof. destruct (loadGallery_run w) as (evs & E & _). now rewrite E. Qed.

Lemma valid_items_finite items : finite_ids (valid_items items).
Proof.
  unfold finite_ids, valid_items. induction items as [|v rest IH]; simpl.
  - constructor.
  - destruct (SavedArtworkSchema v) eqn:E; simpl; auto.
    constructor; auto. eapply SavedArtworkSchema_finite; eauto.
Qed.

Lemma decode_finite s : finite_ids (decode s).
Proof.
  destruct s as [[| |[]]|]; simpl; try constructor. apply valid_items_finite.
Qed.

Lemma valid_items_cons v rest :
  valid_items (v :: rest) =
    match SavedArtworkSchema v with
    | Ok a => a :: valid_items rest
    | Err _ => valid_items rest
    end.
Proof. unfold valid_items. simpl. now destruct (SavedArtworkSchema v). Qed.

Lemma valid_items_app l l' :
  valid_items (l ++ l') = valid_items l ++ valid_items l'.
Proof. unfold valid_items. apply flat_map_app. Qed.

(** Saving and reading back gives the same collection. *)
Lemma decode_text_of g : finite_ids g -> decode (Some (text_of g)) = g.
Proof.
  unfold text_of, JSON_stringify, decode. cbn [jsonify]. rewrite map_map.
  induction 1 as [|a g Ha Hg IH]; cbn [map]; auto.
  rewrite valid_items_cons, (SavedArtworkSchema_jsonify a Ha). now rewrite IH.
Qed.

(** ** Arrays and identifiers *)

Lemma number_eq_sym a b : number_eq a b = number_eq b a.
Proof.
  destruct a, b; simpl; auto.
  destruct (Qeq_bool q q0) eqn:E, (Qeq_bool q0 q) eqn:E'; auto.
  - apply Qeq_bool_iff in E. symmetry in E. apply Qeq_bool_iff in E. congruence.
  - apply Qeq_bool_iff in E'. symmetry in E'. apply Qeq_bool_iff in E'. congruence.
Qed.

Lemma number_eq_refl a : isFinite a = true -> number_eq a a = true.
Proof.
  destruct a; simpl; try discriminate. intros _.
  apply Qeq_bool_iff. reflexivity.
Qed.

Lemma findIndex_none {A} (p : A -> bool) l :
  existsb p l = false -> findIndex p l = (-1)%Z.
Proof.
  induction l as [|x l IH]; simpl; auto.
  destruct (p x); simpl; try discriminate. intros H. now rewrite (IH H).
Qed.

(** The index found is that of the first match. *)
Lemma findIndex_first {A} (p : A -> bool) l1 x l2 :
  existsb p l1 = false -> p x = true ->
  findIndex p (l1 ++ x :: l2) = Z.of_nat (List.length l1).
Proof.
  induction l1 as [|y l1 IH]; simpl; intros H Hx.
  - now rewrite Hx.
  - destruct (p y); simpl in H; try discriminate.
    rewrite (IH H Hx).
    destruct (Z.of_nat (List.length l1) =? -1)%Z eqn:E; lia.
Qed.

(** A list with a match splits at its first match. *)
Lemma existsb_first {A} (p : A -> bool) l :
  existsb p l = true ->
  exists l1 x l2, l = l1 ++ x :: l2 /\ existsb p l1 = false /\ p x = true.
Proof.
  induction l as [|y l IH]; simpl; try discriminate.
  destruct (p y) eqn:E; simpl.
  - intros _. exists [], y, l. auto.
  - intros H. destruct (IH H) as (l1 & x & l2 & -> & H1 & Hx).
    exists (y :: l1), x, l2. simpl. rewrite E. auto.
Qed.

Lemma nth_error_middle {A} (l1 : list A) x l2 :
  nth_error (l1 ++ x :: l2) (List.length l1) = Some x.
Proof. induction l1; simpl; auto. Qed.

Lemma assign_middle {A} (l1 : list A) x l2 y :
  assign (l1 ++ x :: l2) (List.length l1) y = l1 ++ y :: l2.
Proof. induction l1; simpl; auto. now rewrite IHl1. Qed.

Lemma with_note_id a n : id (with_note a n) = id a.
Proof. reflexivity. Qed.

Lemma with_note_twice a n m : with_note (with_note a n) m = with_note a m.
Proof. reflexivity. Qed.

Lemma finite_ids_app g g' : finite_ids g -> finite_ids g' -> finite_ids (g ++ g').
Proof. unfold finite_ids. intros. apply Forall_app. auto. Qed.

Lemma finite_ids_filter p g : finite_ids g -> finite_ids (filter p g).
Proof.
  unfold finite_ids. rewrite !Forall_forall. intros H a Ha.
  apply filter_In in Ha. apply H, Ha.
Qed.

Lemma unique_ids_snoc g a :
  unique_ids g = true ->
  existsb (fun item => number_eq (id item) (id a)) g = false ->
  unique_ids (g ++ [a]) = true.
Proof.
  induction g as [|b g IH]; simpl; auto.
  intros H Ha. apply andb_true_iff in H. destruct H as [Hb Hg].
  apply orb_false_iff in Ha. destruct Ha as [Hba Hga].
  rewrite existsb_app. simpl. rewrite (number_eq_sym (id a) (id b)), Hba.
  apply negb_true_iff in Hb. rewrite Hb. simpl. auto.
Qed.

(** ** The operations, case by case *)

Section Operations.

Variable quota : text -> bool.

Lemma saveGallery_ok g w :
  quota (text_of g) = true ->
  saveGallery quota g w =
    (Return tt, World (Some (text_of g)) (events w ++ [SetItem (text_of g)])).
Proof.
  intros Hq. unfold saveGallery, try_catch, localStorage_setItem.
  fold (text_of g). now rewrite Hq.
Qed.

Lemma saveGallery_stored g w :
  stored (snd (saveGallery quota g w)) = stored w \/
  stored (snd (saveGallery quota g w)) = Some (text_of g).
Proof.
  unfold saveGallery, try_catch, localStorage_setItem. fold (text_of g).
  destruct (quota (text_of g)); simpl; auto.
Qed.

Lemma saveGallery_rejected g w :
  quota (text_of g) = false ->
  saveGallery quota g w =
    (Throw (Error "Galerie konnte nicht gespeichert werden"),
     World (stored w)
           (events w ++ [SetItem (text_of g);
                         ConsoleError "Fehler beim Speichern der Galerie:"
                           (Some QuotaExceededError)])).
Proof.
  intros Hq. unfold saveGallery, try_catch, localStorage_setItem.
  fold (text_of g). rewrite Hq. unfold bind, console_error, emit, throw.
  cbn [stored events]. now rewrite <- app_assoc.
Qed.

(** *** addToGallery *)

Lemma addToGallery_duplicate a w :
  existsb (fun item => number_eq (id item) (Artwork.id a)) (decode (stored w)) = true ->
  exists evs,
    addToGallery quota a w =
      (Return false, World (stored w) (events w ++ GetItem :: evs)) /\
    console_only evs.
Proof.
  intros Hex. destruct (loadGallery_run w) as (evs & E & C).
  exists (evs ++ [ConsoleWarn "Kunstwerk ist bereits in der Galerie"]).
  unfold addToGallery, try_catch, bind. rewrite E. cbv beta iota.
  rewrite Hex. unfold console_warn, emit, ret. simpl.
  rewrite <- app_assoc. simpl. split; auto.
  apply console_only_app; [exact C | reflexivity].
Qed.

Lemma addToGallery_new a w :
  existsb (fun item => number_eq (id item) (Artwork.id a)) (decode (stored w)) = false ->
  isFinite (Artwork.id a) = true ->
  quota (text_of (decode (stored w) ++ [saved_of a])) = true ->
  exists evs,
    addToGallery quota a w =
      (Return true,
       World (Some (text_of (decode (stored w) ++ [saved_of a])))
             (events w ++ GetItem :: evs ++
                [SetItem (text_of (decode (stored w) ++ [saved_of a]))])) /\
    console_only evs.
Proof.
  intros Hex Hfin Hq. destruct (loadGallery_run w) as (evs & E & C).
  exists evs.
  unfold addToGallery, try_catch, bind. rewrite E. cbv beta iota.
  rewrite Hex. fold (saved_of a). unfold parse.
  rewrite (SavedArtworkSchema_to_value (saved_of a) Hfin).
  unfold ret at 1. cbv beta iota.
  rewrite (saveGallery_ok _ _ Hq). unfold ret. simpl.
  rewrite <- app_assoc. simpl. split; auto.
Qed.

(** Whatever [addToGallery] does, the store is left as it was or holds the
    old collection followed by the new record. *)
Lemma addToGallery_stored a w :
  stored (snd (addToGallery quota a w)) = stored w \/
  (existsb (fun item => number_eq (id item) (Artwork.id a)) (decode (stored w)) = false /\
   isFinite (Artwork.id a) = true /\
   stored (snd (addToGallery quota a w)) =
     Some (text_of (decode (stored w) ++ [saved_of a]))).
Proof.
  destruct (loadGallery_run w) as (evs & E & C).
  unfold addToGallery, try_catch, bind. rewrite E. cbv beta iota.
  destruct (existsb _ (decode (stored w))) eqn:Hex.
  - left. reflexivity.
  - fold (saved_of a). unfold parse.
    destruct (isFinite (Artwork.id a)) eqn:Hfin.
    + rewrite (SavedArtworkSchema_to_value (saved_of a) Hfin).
      unfold ret. cbv beta iota.
      match goal with |- context [saveGallery quota ?g ?w0] =>
        destruct (saveGallery_stored g w0) as [S|S];
        destruct (saveGallery quota g w0) as [[[]|e] w1] eqn:R
      end; simpl in S; simpl; auto.
    + pose proof (SavedArtworkSchema_not_finite (saved_of a) Hfin) as N.
      destruct (SavedArtworkSchema (to_value (saved_of a))); try discriminate.
      left. reflexivity.
Qed.

(** *** updateNote *)

(** The over-long note is refused before [loadGallery] is called. *)
Lemma updateNote_too_long aid n w :
  (500 < String.length n)%nat ->
  updateNote quota aid n w =
    (Throw (Error "Notiz konnte nicht aktualisiert werden"),
     World (stored w)
           (events w ++
              [ConsoleError "Fehler beim Aktualisieren der Notiz:"
                 (Some (Error "Notiz darf maximal 500 Zeichen lang sein"))])).
Proof.
  intros Hlen. apply Nat.ltb_lt in Hlen.
  unfold updateNote, try_catch, bind. rewrite Hlen. reflexivity.
Qed.

Lemma updateNote_not_found aid n w :
  (String.length n <= 500)%nat ->
  existsb (fun item => number_eq (id item) aid) (decode (stored w)) = false ->
  exists evs,
    updateNote quota aid n w =
      (Return false, World (stored w) (events w ++ GetItem :: evs)) /\
    console_only evs.
Proof.
  intros Hlen Hex. destruct (loadGallery_run w) as (evs & E & C).
  exists (evs ++ [ConsoleWarn "Kunstwerk nicht in der Galerie gefunden"]).
  assert (Hl : (500 <? String.length n)%nat = false) by (apply Nat.ltb_ge; lia).
  unfold updateNote, try_catch, bind. rewrite Hl. unfold ret at 1.
  cbv beta iota. rewrite E. cbv beta iota.
  rewrite (findIndex_none _ _ Hex). simpl.
  rewrite <- app_assoc. simpl. split; auto.
  apply console_only_app; [exact C | reflexivity].
Qed.

(** The first record with the identifier gets the note; the rest of the
    collection is written back as it was read. *)
Lemma updateNote_found aid n w l1 x l2 :
  (String.length n <= 500)%nat ->
  decode (stored w) = l1 ++ x :: l2 ->
  existsb (fun item => number_eq (id item) aid) l1 = false ->
  number_eq (id x) aid = true ->
  quota (text_of (l1 ++ with_note x n :: l2)) = true ->
  exists evs,
    updateNote quota aid n w =
      (Return true,
       World (Some (text_of (l1 ++ with_note x n :: l2)))
             (events w ++ GetItem :: evs ++
                [SetItem (text_of (l1 ++ with_note x n :: l2))])) /\
    console_only evs.
Proof.
  intros Hlen Hg Hl1 Hx Hq. destruct (loadGallery_run w) as (evs & E & C).
  exists evs.
  assert (Hl : (500 <? String.length n)%nat = false) by (apply Nat.ltb_ge; lia).
  assert (Hfin : isFinite (id (with_note x n)) = true).
  { pose proof (decode_finite (stored w)) as F. rewrite Hg in F.
    unfold finite_ids in F. rewrite Forall_forall in F.
    rewrite with_note_id. apply F. apply in_or_app. right. left. reflexivity. }
  unfold updateNote, try_catch, bind. rewrite Hl. unfold ret at 1.
  cbv beta iota. rewrite E. cbv beta iota. rewrite Hg.
  rewrite (findIndex_first _ l1 x l2 Hl1 Hx).
  destruct (Z.eqb_spec (Z.of_nat (List.length l1)) (-1)) as [Hc|_]; [lia|].
  rewrite Nat2Z.id, nth_error_middle. unfold parse.
  rewrite (SavedArtworkSchema_to_value _ Hfin). unfold ret at 1.
  cbv beta iota. rewrite assign_middle.
  rewrite (saveGallery_ok _ _ Hq). unfold ret. simpl.
  rewrite <- app_assoc. simpl. split; auto.
Qed.

(** A refused write makes [updateNote] throw and changes nothing. *)
Lemma updateNote_rejected aid n w l1 x l2 :
  (String.length n <= 500)%nat ->
  decode (stored w) = l1 ++ x :: l2 ->
  existsb (fun item => number_eq (id item) aid) l1 = false ->
  number_eq (id x) aid = true ->
  quota (text_of (l1 ++ with_note x n :: l2)) = false ->
  fst (updateNote quota aid n w) =
    Throw (Error "Notiz konnte nicht aktualisiert werden") /\
  stored (snd (updateNote quota aid n w)) = stored w.
Proof.
  intros Hlen Hg Hl1 Hx Hq. destruct (loadGallery_run w) as (evs & E & C).
  assert (Hl : (500 <? String.length n)%nat = false) by (apply Nat.ltb_ge; lia).
  assert (Hfin : isFinite (id (with_note x n)) = true).
  { pose proof (decode_finite (stored w)) as F. rewrite Hg in F.
    unfold finite_ids in F. rewrite Forall_forall in F.
    rewrite with_note_id. apply F. apply in_or_app. right. left. reflexivity. }
  unfold updateNote, try_catch, bind. rewrite Hl. unfold ret.
  cbv beta iota. rewrite E. cbv beta iota. rewrite Hg.
  rewrite (findIndex_first _ l1 x l2 Hl1 Hx).
  destruct (Z.eqb_spec (Z.of_nat (List.length l1)) (-1)) as [Hc|_]; [lia|].
  rewrite Nat2Z.id, nth_error_middle. unfold parse.
  rewrite (SavedArtworkSchema_to_value _ Hfin). unfold ret.
  cbv beta iota. rewrite assign_middle.
  rewrite !(saveGallery_rejected _ _ Hq). cbn. auto.
Qed.

(** *** removeFromGallery *)

Lemma removeFromGallery_not_found aid w :
  existsb (fun item => number_eq (id item) aid) (decode (stored w)) = false ->
  exists evs,
    removeFromGallery quota aid w =
      (Return false, World (stored w) (events w ++ GetItem :: evs)) /\
    console_only evs.
Proof.
  intros Hex. destruct (loadGallery_run w) as (evs & E & C).
  exists (evs ++ [ConsoleWarn "Kunstwerk nicht in der Galerie gefunden"]).
  unfold removeFromGallery, try_catch, bind. rewrite E. cbv beta iota.
  rewrite Hex. simpl. rewrite <- app_assoc. simpl. split; auto.
  apply console_only_app; [exact C | reflexivity].
Qed.

Lemma removeFromGallery_found aid w :
  existsb (fun item => number_eq (id item) aid) (decode (stored w)) = true ->
  quota (text_of (filter (fun item => negb (number_eq (id item) aid))
                    (decode (stored w)))) = true ->
  exists evs,
    removeFromGallery quota aid w =
      (Return true,
       World (Some (text_of (filter (fun item => negb (number_eq (id item) aid))
                               (decode (stored w)))))
             (events w ++ GetItem :: evs ++
                [SetItem (text_of (filter (fun item => negb (number_eq (id item) aid))
                                     (decode (stored w))))])) /\
    console_only evs.
Proof.
  intros Hex Hq. destruct (loadGallery_run w) as (evs & E & C).
  exists evs.
  unfold removeFromGallery, try_catch, bind. rewrite E. cbv beta iota.
  rewrite Hex. change (negb true) with false. cbv beta iota.
  rewrite (saveGallery_ok _ _ Hq). unfold ret. simpl.
  rewrite <- app_assoc. simpl. split; auto.
Qed.

End Operations.

(** ** The collection the store stands for *)

Lemma loaded_is_decode w g :
  fst (loadGallery w) = Return g -> g = decode (stored w).
Proof. rewrite loadGallery_result. now intros [= ->]. Qed.

Lemma read_only_after_get w evs :
  console_only evs ->
  read_only w (World (stored w) (events w ++ GetItem :: evs)).
Proof.
  intros C. split; [reflexivity|]. exists (GetItem :: evs). split; [reflexivity|].
  simpl. now apply console_only_no_write.
Qed.

Lemma set_first_note_split aid n l1 x l2 :
  existsb (fun item => number_eq (id item) aid) l1 = false ->
  number_eq (id x) aid = true ->
  set_first_note aid n (l1 ++ x :: l2) = l1 ++ with_note x n :: l2.
Proof.
  induction l1 as [|y l1 IH]; simpl; intros H Hx.
  - now rewrite Hx.
  - apply orb_false_iff in H. destruct H as [Hy H]. rewrite Hy.
    now rewrite (IH H Hx).
Qed.

Lemma find_first_split aid l1 (x : SavedArtwork) l2 :
  existsb (fun item => number_eq (id item) aid) l1 = false ->
  number_eq (id x) aid = true ->
  find (fun item => number_eq (id item) aid) (l1 ++ x :: l2) = Some x.
Proof.
  induction l1 as [|y l1 IH]; simpl; intros H Hx.
  - now rewrite Hx.
  - apply orb_false_iff in H. destruct H as [Hy H]. rewrite Hy. auto.
Qed.

Lemma finite_ids_set_note l1 x l2 n :
  finite_ids (l1 ++ x :: l2) -> finite_ids (l1 ++ with_note x n :: l2).
Proof.
  unfold finite_ids. rewrite !Forall_app. intros [H1 H2]. split; auto.
  inversion H2; subst. constructor; auto.
Qed.

(** * The claims *)

(** C4. [loadGallery] never throws, whatever the stored text.  With nothing
    stored, with a text that is not JSON, or with JSON that is not an array,
    it returns the empty collection; with an array it validates each element
    on its own, leaves out those that fail and returns the others; it neither
    writes nor removes the stored text.  An array holding one well-formed
    record and one record without [id] gives exactly the well-formed record. *)
Theorem loadGallery_never_raises (w : world) :
  exists g,
    fst (loadGallery w) = Return g /\
    read_only w (snd (loadGallery w)) /\
    (stored w = None -> g = []) /\
    (stored w = Some EmptyText \/ stored w = Some Malformed -> g = []) /\
    (forall v, stored w = Some (Json v) ->
               (forall items, v <> VArray items) -> g = []) /\
    (forall items, stored w = Some (Json (VArray items)) ->
                   g = valid_items items) /\
    (forall good a o,
        SavedArtworkSchema good = Ok a ->
        get o "id" = VUndefined ->
        (stored w = Some (Json (VArray [good; VObject o])) -> g = [a]) /\
        (stored w = Some (Json (VArray [VObject o; good])) -> g = [a])).
Proof.
  exists (decode (stored w)). destruct (loadGallery_run w) as (evs & E & C).
  rewrite E. cbn [fst snd].
  split; [reflexivity|]. split; [now apply read_only_after_get|].
  split; [now intros ->|]. split; [now intros [-> | ->]|].
  split; [|split].
  - intros v -> Hv. destruct v; try reflexivity. now elim (Hv items).
  - now intros items ->.
  - intros good a o Hgood Hid.
    assert (Hbad : is_ok (SavedArtworkSchema (VObject o)) = false).
    { unfold SavedArtworkSchema. rewrite !ap_is_ok, !field_is_ok, Hid.
      reflexivity. }
    destruct (SavedArtworkSchema (VObject o)) eqn:B; try discriminate.
    split; intros ->; cbn [decode];
      rewrite !valid_items_cons, ?Hgood, ?B, ?Hgood; reflexivity.
Qed.

(** C8. When no loaded record has the identifier (the empty gallery
    included), [updateNote] with a note of at most 500 characters and
    [removeFromGallery] both return [false], call neither [setItem] nor
    [removeItem], and [loadGallery] gives the same collection after as
    before. *)
Theorem not_found_leaves_storage (quota : text -> bool) (w : world)
        (aid : number) (n : string) (g : list SavedArtwork) :
  fst (loadGallery w) = Return g ->
  existsb (fun item => number_eq (id item) aid) g = false ->
  (String.length n <= 500)%nat ->
  (fst (updateNote quota aid n w) = Return false /\
   read_only w (snd (updateNote quota aid n w)) /\
   fst (loadGallery (snd (updateNote quota aid n w))) = Return g) /\
  (fst (removeFromGallery quota aid w) = Return false /\
   read_only w (snd (removeFromGallery quota aid w)) /\
   fst (loadGallery (snd (removeFromGallery quota aid w))) = Return g).
Proof.
  intros Hg Hex Hlen. apply loaded_is_decode in Hg. subst g. split.
  - destruct (updateNote_not_found quota aid n w Hlen Hex) as (evs & E & C).
    rewrite E. cbn [fst snd]. split; [reflexivity|].
    split; [now apply read_only_after_get|]. now rewrite loadGallery_result.
  - destruct (removeFromGallery_not_found quota aid w Hex) as (evs & E & C).
    rewrite E. cbn [fst snd]. split; [reflexivity|].
    split; [now apply read_only_after_get|]. now rewrite loadGallery_result.
Qed.

(** C3, as the code has it.  On a gallery that holds the identifier,
    [updateNote] with a note of at most 500 characters, 500 included,
    returns [true] and the note is stored on the first record of that
    identifier (the browser accepting the write).  With a note of 501
    characters or more it throws without having called [getItem] or
    [setItem], and the stored text is the same.  What it throws is the
    [Error] "Notiz konnte nicht aktualisiert werden", the very one a refused
    write gives: the length check is only the cause written to the
    console. *)
Theorem updateNote_length_boundary (quota : text -> bool) (w : world)
        (aid : number) (n : string) (g : list SavedArtwork) :
  fst (loadGallery w) = Return g ->
  ((String.length n <= 500)%nat ->
   existsb (fun item => number_eq (id item) aid) g = true ->
   quota (text_of (set_first_note aid n g)) = true ->
   fst (updateNote quota aid n w) = Return true /\
   stored (snd (updateNote quota aid n w)) =
     Some (text_of (set_first_note aid n g)) /\
   fst (loadGallery (snd (updateNote quota aid n w))) =
     Return (set_first_note aid n g) /\
   exists r,
     find (fun item => number_eq (id item) aid) (set_first_note aid n g) = Some r /\
     note r = n) /\
  ((501 <= String.length n)%nat ->
   fst (updateNote quota aid n w) =
     Throw (Error "Notiz konnte nicht aktualisiert werden") /\
   stored (snd (updateNote quota aid n w)) = stored w /\
   events (snd (updateNote quota aid n w)) =
     events w ++
       [ConsoleError "Fehler beim Aktualisieren der Notiz:"
          (Some (Error "Notiz darf maximal 500 Zeichen lang sein"))]) /\
  ((String.length n <= 500)%nat ->
   existsb (fun item => number_eq (id item) aid) g = true ->
   quota (text_of (set_first_note aid n g)) = false ->
   fst (updateNote quota aid n w) =
     Throw (Error "Notiz konnte nicht aktualisiert werden") /\
   stored (snd (updateNote quota aid n w)) = stored w).
Proof.
  intros Hg. apply loaded_is_decode in Hg. subst g. split; [|split].
  - intros Hlen Hex Hq.
    destruct (existsb_first _ _ Hex) as (l1 & x & l2 & Hsplit & H1 & Hx).
    rewrite Hsplit, (set_first_note_split aid n l1 x l2 H1 Hx) in Hq |- *.
    destruct (updateNote_found quota aid n w l1 x l2 Hlen Hsplit H1 Hx Hq)
      as (evs & E & _).
    rewrite E. cbn [fst snd stored]. split; [reflexivity|].
    split; [reflexivity|]. split.
    + rewrite loadGallery_result. cbn [stored]. apply f_equal.
      apply decode_text_of, finite_ids_set_note.
      rewrite <- Hsplit. apply decode_finite.
    + exists (with_note x n). split; [now apply find_first_split | reflexivity].
  - intros Hlen. rewrite updateNote_too_long by lia. repeat split.
  - intros Hlen Hex Hq.
    destruct (existsb_first _ _ Hex) as (l1 & x & l2 & Hsplit & H1 & Hx).
    rewrite Hsplit, (set_first_note_split aid n l1 x l2 H1 Hx) in Hq.
    exact (updateNote_rejected quota aid n w l1 x l2 Hlen Hsplit H1 Hx Hq).
Qed.

(** C3, as the claim has it, fails: the exception for a note of 501
    characters is not a validation error that names the length; it is the
    [Error] that a refused write of a valid note gives as well. *)
Lemma updateNote_long_note_generic_error :
  fst (updateNote unlimited (int 1) (note_of_length 501) one_saved) =
    Throw (Error "Notiz konnte nicht aktualisiert werden") /\
  fst (updateNote storage_full (int 1) "x" one_saved) =
    fst (updateNote unlimited (int 1) (note_of_length 501) one_saved) /\
  (forall issues,
      fst (updateNote unlimited (int 1) (note_of_length 501) one_saved) <>
      Throw (ZodError issues)) /\
  fst (updateNote unlimited (int 1) (note_of_length 501) one_saved) <>
    Throw (Error "Notiz darf maximal 500 Zeichen lang sein").
Proof.
  assert (E : fst (updateNote unlimited (int 1) (note_of_length 501) one_saved) =
              Throw (Error "Notiz konnte nicht aktualisiert werden"))
    by reflexivity.
  split; [exact E|]. split; [rewrite E; reflexivity|].
  split; [intros issues; rewrite E; discriminate | rewrite E; discriminate].
Qed.

(** C9. For an identifier present in the gallery and a note of at most 500
    characters, [updateNote] called twice in a row returns [true] both times
    (the browser accepting the write), and after either call the record
    found under the identifier carries that note. *)
Theorem updateNote_twice (quota : text -> bool) (w : world)
        (aid : number) (n : string) (g : list SavedArtwork) :
  fst (loadGallery w) = Return g ->
  existsb (fun item => number_eq (id item) aid) g = true ->
  (String.length n <= 500)%nat ->
  quota (text_of (set_first_note aid n g)) = true ->
  fst (updateNote quota aid n w) = Return true /\
  fst (updateNote quota aid n (snd (updateNote quota aid n w))) = Return true /\
  (exists g1 r,
      fst (loadGallery (snd (updateNote quota aid n w))) = Return g1 /\
      find (fun item => number_eq (id item) aid) g1 = Some r /\
      note r = n) /\
  (exists g2 r,
      fst (loadGallery
             (snd (updateNote quota aid n (snd (updateNote quota aid n w))))) =
        Return g2 /\
      find (fun item => number_eq (id item) aid) g2 = Some r /\
      note r = n).
Proof.
  intros Hg Hex Hlen Hq. apply loaded_is_decode in Hg.
  destruct (existsb_first _ _ Hex) as (l1 & x & l2 & Hsplit & H1 & Hx).
  rewrite Hsplit, (set_first_note_split aid n l1 x l2 H1 Hx) in Hq.
  rewrite Hg in Hsplit.
  assert (Hfin : finite_ids (l1 ++ with_note x n :: l2)).
  { apply finite_ids_set_note. rewrite <- Hsplit. apply decode_finite. }
  destruct (updateNote_found quota aid n w l1 x l2 Hlen Hsplit H1 Hx Hq)
    as (evs & E & _).
  rewrite E. cbn [fst snd].
  match goal with |- context [updateNote quota aid n ?w1] =>
    assert (Hd : decode (stored w1) = l1 ++ with_note x n :: l2)
      by (cbn [stored]; now apply decode_text_of);
    destruct (updateNote_found quota aid n w1 l1 (with_note x n) l2
                Hlen Hd H1 Hx Hq) as (evs' & E' & _)
  end.
  rewrite E'. cbn [fst snd]. rewrite !loadGallery_result. cbn [stored].
  rewrite with_note_twice, (decode_text_of _ Hfin).
  split; [reflexivity|]. split; [reflexivity|].
  split; exists (l1 ++ with_note x n :: l2), (with_note x n);
    (split; [reflexivity|]); (split; [now apply find_first_split | reflexivity]).
Qed.

Lemma addToGallery_keeps_unique quota a w :
  unique_ids (decode (stored w)) = true ->
  unique_ids (decode (stored (snd (addToGallery quota a w)))) = true.
Proof.
  intros U. destruct (addToGallery_stored quota a w) as [-> | (Hex & Hfin & ->)].
  - exact U.
  - rewrite decode_text_of.
    + now apply unique_ids_snoc.
    + apply finite_ids_app; [apply decode_finite|].
      constructor; [exact Hfin | constructor].
Qed.

Lemma add_all_keeps_unique quota artworks w :
  unique_ids (decode (stored w)) = true ->
  unique_ids (decode (stored (add_all quota artworks w))) = true.
Proof.
  revert w. induction artworks as [|a rest IH]; intros w U; simpl; auto.
  apply IH. now apply addToGallery_keeps_unique.
Qed.

(** C1. Starting from a stored collection without two records of one
    identifier, after any sequence of [addToGallery] calls (whatever each
    returns or throws) the stored collection has no two records of one
    identifier.  Adding an artwork that is not yet stored and then an
    artwork of the same identifier returns [true] and then [false] (the
    browser accepting the write); the second call calls neither [setItem]
    nor [removeItem], and the collection is one record longer after the two
    calls than before. *)
Theorem addToGallery_unique (quota : text -> bool) (w : world)
        (g : list SavedArtwork) :
  fst (loadGallery w) = Return g ->
  (unique_ids g = true ->
   forall artworks, exists g',
     fst (loadGallery (add_all quota artworks w)) = Return g' /\
     unique_ids g' = true) /\
  (forall a a',
     isFinite (Artwork.id a) = true ->
     existsb (fun item => number_eq (id item) (Artwork.id a)) g = false ->
     quota (text_of (g ++ [saved_of a])) = true ->
     number_eq (Artwork.id a) (Artwork.id a') = true ->
     fst (addToGallery quota a w) = Return true /\
     fst (addToGallery quota a' (snd (addToGallery quota a w))) = Return false /\
     read_only (snd (addToGallery quota a w))
               (snd (addToGallery quota a' (snd (addToGallery quota a w)))) /\
     exists g2,
       fst (loadGallery
              (snd (addToGallery quota a' (snd (addToGallery quota a w))))) =
         Return g2 /\
       List.length g2 = S (List.length g)).
Proof.
  intros Hg. apply loaded_is_decode in Hg. subst g. split.
  - intros U artworks. exists (decode (stored (add_all quota artworks w))).
    split; [apply loadGallery_result | now apply add_all_keeps_unique].
  - intros a a' Hfin Hex Hq Hsame.
    assert (F : finite_ids (decode (stored w) ++ [saved_of a])).
    { apply finite_ids_app; [apply decode_finite|].
      constructor; [exact Hfin | constructor]. }
    destruct (addToGallery_new quota a w Hex Hfin Hq) as (evs & E & C).
    rewrite E. cbn [fst snd].
    match goal with |- context [addToGallery quota a' ?w1] =>
      assert (Hdup : existsb (fun item => number_eq (id item) (Artwork.id a'))
                       (decode (stored w1)) = true)
    end.
    { cbn [stored]. rewrite (decode_text_of _ F), existsb_app.
      cbn [existsb saved_of id]. rewrite Hsame. apply orb_true_r. }
    match goal with |- context [addToGallery quota a' ?w1] =>
      destruct (addToGallery_duplicate quota a' w1 Hdup) as (evs' & E' & C')
    end.
    rewrite E'. cbn [fst snd stored events].
    split; [reflexivity|]. split; [reflexivity|].
    split.
    + split; [reflexivity|]. exists (GetItem :: evs'). split; [reflexivity|].
      simpl. now apply console_only_no_write.
    + exists (decode (stored w) ++ [saved_of a]).
      rewrite loadGallery_result. cbn [stored]. rewrite (decode_text_of _ F).
      split; [reflexivity|]. rewrite length_app. simpl. lia.
Qed.

(** C7. For an artwork with a valid identifier that is not yet in the
    gallery, [addToGallery] (the browser accepting the write) followed by
    [loadGallery] returns the old collection followed by a record that has
    the artwork's identifier and every copied field, and the empty note. *)
Theorem addToGallery_then_load (quota : text -> bool) (w : world)
        (g : list SavedArtwork) (a : Artwork.t) :
  fst (loadGallery w) = Return g ->
  isFinite (Artwork.id a) = true ->
  existsb (fun item => number_eq (id item) (Artwork.id a)) g = false ->
  quota (text_of (g ++ [saved_of a])) = true ->
  fst (addToGallery quota a w) = Return true /\
  exists g' s,
    fst (loadGallery (snd (addToGallery quota a w))) = Return g' /\
    g' = g ++ [s] /\ In s g' /\
    id s = Artwork.id a /\
    title s = Artwork.title a /\
    artist_title s = Artwork.artist_title a /\
    image_id s = Artwork.image_id a /\
    date_display s = Artwork.date_display a /\
    medium_display s = Artwork.medium_display a /\
    place_of_origin s = Artwork.place_of_origin a /\
    dimensions s = Artwork.dimensions a /\
    note s = "".
Proof.
  intros Hg Hfin Hex Hq. apply loaded_is_decode in Hg. subst g.
  assert (F : finite_ids (decode (stored w) ++ [saved_of a])).
  { apply finite_ids_app; [apply decode_finite|].
    constructor; [exact Hfin | constructor]. }
  destruct (addToGallery_new quota a w Hex Hfin Hq) as (evs & E & C).
  rewrite E. cbn [fst snd]. split; [reflexivity|].
  exists (decode (stored w) ++ [saved_of a]), (saved_of a).
  rewrite loadGallery_result. cbn [stored]. rewrite (decode_text_of _ F).
  split; [reflexivity|]. split; [reflexivity|].
  split; [apply in_or_app; right; left; reflexivity|].
  repeat split.
Qed.

Lemma existsb_filter_negb {A} (p : A -> bool) l :
  existsb p (filter (fun x => negb (p x)) l) = false.
Proof.
  induction l as [|x l IH]; simpl; auto.
  destruct (p x) eqn:E; simpl; auto. now rewrite E, IH.
Qed.

(** C10. [loadGallery] does not look for duplicates: when the stored JSON
    array holds two records that pass the schema and have the same
    identifier, both are returned.  [removeFromGallery] with that identifier
    then returns [true] and leaves no record bearing it, while [updateNote]
    with that identifier changes the note of the first such record only
    (the browser accepting the writes). *)
Theorem duplicates_in_stored_text (quota : text -> bool) (w : world)
        (vs1 vs2 vs3 : list value) (va vb : value) (a b : SavedArtwork)
        (n : string) :
  stored w = Some (Json (VArray (vs1 ++ va :: vs2 ++ vb :: vs3))) ->
  SavedArtworkSchema va = Ok a ->
  SavedArtworkSchema vb = Ok b ->
  number_eq (id a) (id b) = true ->
  existsb (fun item => number_eq (id item) (id a)) (valid_items vs1) = false ->
  fst (loadGallery w) =
    Return (valid_items vs1 ++ a :: valid_items vs2 ++ b :: valid_items vs3) /\
  (quota (text_of (filter (fun item => negb (number_eq (id item) (id a)))
                     (valid_items vs1 ++ a :: valid_items vs2 ++ b :: valid_items vs3)))
     = true ->
   fst (removeFromGallery quota (id a) w) = Return true /\
   exists g',
     fst (loadGallery (snd (removeFromGallery quota (id a) w))) = Return g' /\
     g' = filter (fun item => negb (number_eq (id item) (id a)))
            (valid_items vs1 ++ valid_items vs2 ++ valid_items vs3) /\
     existsb (fun item => number_eq (id item) (id a)) g' = false) /\
  ((String.length n <= 500)%nat ->
   quota (text_of (valid_items vs1 ++ with_note a n :: valid_items vs2 ++
                     b :: valid_items vs3)) = true ->
   fst (updateNote quota (id a) n w) = Return true /\
   fst (loadGallery (snd (updateNote quota (id a) n w))) =
     Return (valid_items vs1 ++ with_note a n :: valid_items vs2 ++
               b :: valid_items vs3)).
Proof.
  intros Hs Ha Hb Hab Hfirst.
  assert (Hd : decode (stored w) =
               valid_items vs1 ++ a :: valid_items vs2 ++ b :: valid_items vs3).
  { rewrite Hs. cbn [decode].
    rewrite valid_items_app, valid_items_cons, Ha.
    now rewrite valid_items_app, valid_items_cons, Hb. }
  assert (Hfa : isFinite (id a) = true) by (eapply SavedArtworkSchema_finite; eauto).
  assert (Haa : number_eq (id a) (id a) = true) by now apply number_eq_refl.
  assert (Hba : number_eq (id b) (id a) = true) by now rewrite number_eq_sym.
  split; [now rewrite loadGallery_result, Hd|]. split.
  - intros Hq.
    assert (Hex : existsb (fun item => number_eq (id item) (id a))
                    (decode (stored w)) = true).
    { rewrite Hd, existsb_app. simpl. rewrite Haa. apply orb_true_r. }
    rewrite <- Hd in Hq.
    destruct (removeFromGallery_found quota (id a) w Hex Hq) as (evs & E & _).
    rewrite E. cbn [fst snd]. split; [reflexivity|].
    eexists. rewrite loadGallery_result. cbn [stored].
    rewrite decode_text_of by (apply finite_ids_filter, decode_finite).
    split; [reflexivity|]. split; [|apply existsb_filter_negb].
    rewrite Hd, !filter_app. simpl. rewrite Haa. simpl.
    rewrite filter_app. simpl. rewrite Hba. reflexivity.
  - intros Hlen Hq.
    destruct (updateNote_found quota (id a) n w _ _ _ Hlen Hd Hfirst Haa Hq)
      as (evs & E & _).
    rewrite E. cbn [fst snd]. split; [reflexivity|].
    rewrite loadGallery_result. cbn [stored]. apply f_equal.
    apply decode_text_of. apply finite_ids_set_note.
    rewrite <- Hd. apply decode_finite.
Qed.

(** ** The schemas *)

Lemma z_number_is_ok v : is_ok (z.number v) = is_number v.
Proof. destruct v; simpl; auto. now destruct (isFinite n). Qed.

Lemma z_string_default_is_ok d v :
  is_ok (z.default d z.string v) = negb (present_not_string v).
Proof. now destruct v. Qed.

Lemma z_nullable_default_is_ok d v :
  is_ok (z.default d (z.nullable z.string) v) = negb (present_not_string_or_null v).
Proof. now destruct v. Qed.

Lemma z_nullable_optional_is_ok v :
  is_ok (z.optional (z.nullable z.string) v) = negb (present_not_string_or_null v).
Proof. now destruct v. Qed.

(** C5, as the code has it.  [ArtworkSchema] fails exactly when the value is
    not an object, or its [id] is missing or is not a finite number, or
    [title] is there and is not a string, or one of [artist_title],
    [image_id], [date_display], [medium_display], [place_of_origin],
    [dimensions] is there and is neither a string nor [null].  The [id] need
    not be an integer. *)
Theorem ArtworkSchema_fails_exactly (v : value) :
  is_ok (ArtworkSchema v) = negb (ArtworkSchema_rejects v).
Proof.
  destruct v; try reflexivity.
  unfold ArtworkSchema, ArtworkSchema_rejects.
  rewrite !ap_is_ok, !field_is_ok. cbn [is_ok andb].
  rewrite z_number_is_ok, z_string_default_is_ok, !z_nullable_default_is_ok,
    !z_nullable_optional_is_ok.
  rewrite !negb_orb, negb_involutive. reflexivity.
Qed.

(** C5, as the claim has it, fails: the identifier 1.5 is not an integer
    and the value is accepted. *)
Lemma ArtworkSchema_accepts_fraction :
  isInteger (Finite (3 # 2)) = false /\
  ArtworkSchema (VObject [("id", VNumber (Finite (3 # 2)))]) =
    Ok (Artwork.mk (Finite (3 # 2)) Unbekannter_Titel
          (NotNull Unbekannter_Kuenstler) Null
          Undefined Undefined Undefined Undefined).
Proof. split; reflexivity. Qed.

(** C6, as the code has it.  For a value [ArtworkSchema] accepts: a missing
    [title] becomes "Unbekannter Titel" and a [null] title is never
    accepted; a missing [artist_title] becomes "Unbekannter Künstler" while
    a [null] one stays [null]; a missing or [null] [image_id] is [null]. *)
Theorem ArtworkSchema_defaults (v : value) (r : Artwork.t) :
  ArtworkSchema v = Ok r ->
  exists o, v = VObject o /\
    (get o "title" = VUndefined -> Artwork.title r = Unbekannter_Titel) /\
    get o "title" <> VNull /\
    (get o "artist_title" = VUndefined ->
     Artwork.artist_title r = NotNull Unbekannter_Kuenstler) /\
    (get o "artist_title" = VNull -> Artwork.artist_title r = Null) /\
    (get o "image_id" = VUndefined \/ get o "image_id" = VNull ->
     Artwork.image_id r = Null).
Proof.
  destruct v; try discriminate. intros H. exists props. split; [reflexivity|].
  apply ArtworkSchema_Ok_inv in H. destruct H as (_ & Ht & Har & Him).
  repeat split.
  - intros E. rewrite E in Ht. now inversion Ht.
  - intros E. rewrite E in Ht. discriminate.
  - intros E. rewrite E in Har. now inversion Har.
  - intros E. rewrite E in Har. now inversion Har.
  - intros [E|E]; rewrite E in Him; now inversion Him.
Qed.

(** C6, as the claim has it, fails: with [artist_title] null the value is
    accepted and the artist stays [null]. *)
Lemma ArtworkSchema_null_artist :
  ArtworkSchema (VObject [("id", VNumber (int 1)); ("artist_title", VNull)]) =
    Ok (Artwork.mk (int 1) Unbekannter_Titel Null Null
          Undefined Undefined Undefined Undefined) /\
  @Null string <> NotNull "Unknown artist".
Proof. split; [reflexivity | discriminate]. Qed.

Lemma note_of_length_length k : String.length (note_of_length k) = k.
Proof. induction k; simpl; auto. Qed.

Lemma get_other key s o k :
  String.eqb key k = false -> get ((key, s) :: o) k = get o k.
Proof. simpl. now intros ->. Qed.

(** C2, as the code has it.  The limit of 500 characters is in [NoteSchema]:
    a value whose [note] is a longer string fails there with a [too_big]
    issue on [note].  [SavedArtworkSchema] has no limit on [note]: for a
    value it accepts, a missing [note] becomes the empty string, a string
    [note] is returned as it is, and the same value with any other string
    as its [note], of whatever length, is accepted too. *)
Theorem note_limit (o : list (string * value)) :
  (forall s, get o "note" = VString s -> (500 < String.length s)%nat ->
     exists issues,
       NoteSchema (VObject o) = Err issues /\
       In (Issue (too_big 500 "Notiz darf maximal 500 Zeichen lang sein") ["note"])
          issues) /\
  (forall r, SavedArtworkSchema (VObject o) = Ok r ->
     (get o "note" = VUndefined -> note r = "") /\
     (forall s, get o "note" = VString s -> note r = s) /\
     (forall s, SavedArtworkSchema (VObject (("note", VString s) :: o)) =
                  Ok (with_note r s))).
Proof.
  split.
  - intros s Hs Hlen. unfold NoteSchema, z.field at 2. rewrite Hs.
    unfold z.default, z.max, z.string.
    assert (Hl : (String.length s <=? 500)%nat = false)
      by (apply Nat.leb_gt; exact Hlen).
    rewrite Hl. cbn [map code path].
    destruct (z.field o "artworkId" z.number) as [i|e]; cbn [z.ap].
    + eexists. split; [reflexivity|]. left. reflexivity.
    + eexists. split; [reflexivity|]. apply in_or_app. right. left. reflexivity.
  - intros r H. apply SavedArtworkSchema_Ok_inv in H.
    destruct H as (H1 & H2 & H3 & H4 & H5 & H6 & H7 & H8 & H9).
    split; [|split].
    + intros E. rewrite E in H9. now inversion H9.
    + intros s E. rewrite E in H9. now inversion H9.
    + intros s. apply SavedArtworkSchema_Ok_intro;
        rewrite ?get_other by reflexivity; try assumption.
      reflexivity.
Qed.

(** C2, as the claim has it, fails: [SavedArtworkSchema] accepts a record
    with a note of 501 characters. *)
Lemma SavedArtworkSchema_accepts_long_note :
  String.length (note_of_length 501) = 501%nat /\
  SavedArtworkSchema
    (VObject [("id", VNumber (int 1)); ("title", VString "Starry Night");
              ("artist_title", VNull); ("image_id", VNull);
              ("note", VString (note_of_length 501))]) =
    Ok (mkSavedArtwork (int 1) "Starry Night" Null Null
          Undefined Undefined Undefined Undefined (note_of_length 501)).
Proof. split; [apply note_of_length_length | reflexivity]. Qed.

(** ** Concrete runs *)

Lemma addToGallery_unique_witness :
  (exists g',
      fst (loadGallery
             (add_all unlimited [starry_night; starry_night] empty_storage)) =
        Return g' /\
      unique_ids g' = true) /\
  fst (addToGallery unlimited starry_night empty_storage) = Return true /\
  fst (addToGallery unlimited starry_night
         (snd (addToGallery unlimited starry_night empty_storage))) =
    Return false.
Proof.
  destruct (addToGallery_unique unlimited empty_storage [] eq_refl) as [H1 H2].
  split.
  - apply H1. reflexivity.
  - destruct (H2 starry_night starry_night eq_refl eq_refl eq_refl eq_refl)
      as (R1 & R2 & _).
    split; [exact R1 | exact R2].
Defined.

Lemma updateNote_length_boundary_witness :
  (fst (updateNote unlimited (int 1) (note_of_length 500) one_saved) = Return true /\
   fst (loadGallery
          (snd (updateNote unlimited (int 1) (note_of_length 500) one_saved))) =
     Return [with_note (saved_of starry_night) (note_of_length 500)]) /\
  (fst (updateNote unlimited (int 1) (note_of_length 501) one_saved) =
     Throw (Error "Notiz konnte nicht aktualisiert werden") /\
   stored (snd (updateNote unlimited (int 1) (note_of_length 501) one_saved)) =
     stored one_saved) /\
  fst (updateNote storage_full (int 1) "x" one_saved) =
    Throw (Error "Notiz konnte nicht aktualisiert werden").
Proof.
  split; [|split].
  - destruct (updateNote_length_boundary unlimited one_saved (int 1)
                (note_of_length 500) [saved_of starry_night] eq_refl)
      as [H _].
    destruct H as (R & _ & L & _).
    + rewrite note_of_length_length. apply le_n.
    + reflexivity.
    + reflexivity.
    + split; [exact R | exact L].
  - destruct (updateNote_length_boundary unlimited one_saved (int 1)
                (note_of_length 501) [saved_of starry_night] eq_refl)
      as (_ & H & _).
    destruct H as (R & S & _).
    + rewrite note_of_length_length. apply le_n.
    + split; [exact R | exact S].
  - destruct (updateNote_length_boundary storage_full one_saved (int 1)
                "x" [saved_of starry_night] eq_refl)
      as (_ & _ & H).
    destruct H as (R & _).
    + simpl. lia.
    + reflexivity.
    + reflexivity.
    + exact R.
Defined.

Lemma ArtworkSchema_defaults_witness :
  ArtworkSchema (VObject [("id", VNumber (int 1))]) = Ok only_id /\
  Artwork.title only_id = Unbekannter_Titel /\
  Artwork.artist_title only_id = NotNull Unbekannter_Kuenstler /\
  Artwork.image_id only_id = Null.
Proof.
  destruct (ArtworkSchema_defaults (VObject [("id", VNumber (int 1))]) only_id
              eq_refl) as (o & Ho & Ht & _ & Ha & _ & Hi).
  injection Ho as <-.
  split; [reflexivity|]. split; [apply Ht; reflexivity|].
  split; [apply Ha; reflexivity | apply Hi; left; reflexivity].
Defined.

Lemma addToGallery_then_load_witness :
  fst (addToGallery unlimited starry_night empty_storage) = Return true /\
  exists g' s,
    fst (loadGallery (snd (addToGallery unlimited starry_night empty_storage))) =
      Return g' /\
    g' = [] ++ [s] /\ In s g' /\
    id s = int 1 /\
    title s = "Starry Night" /\
    artist_title s = NotNull "Van Gogh" /\
    image_id s = Null /\
    date_display s = Undefined /\
    medium_display s = Undefined /\
    place_of_origin s = Undefined /\
    dimensions s = Undefined /\
    note s = "".
Proof.
  exact (addToGallery_then_load unlimited empty_storage [] starry_night
           eq_refl eq_refl eq_refl eq_refl).
Defined.

Lemma not_found_leaves_storage_witness :
  (fst (updateNote unlimited (int 999) "x" empty_storage) = Return false /\
   read_only empty_storage (snd (updateNote unlimited (int 999) "x" empty_storage)) /\
   fst (loadGallery (snd (updateNote unlimited (int 999) "x" empty_storage))) =
     Return []) /\
  (fst (removeFromGallery unlimited (int 999) empty_storage) = Return false /\
   read_only empty_storage (snd (removeFromGallery unlimited (int 999) empty_storage)) /\
   fst (loadGallery (snd (removeFromGallery unlimited (int 999) empty_storage))) =
     Return []).
Proof.
  apply (not_found_leaves_storage unlimited empty_storage (int 999) "x" []).
  - reflexivity.
  - reflexivity.
  - simpl. lia.
Defined.

Lemma updateNote_twice_witness :
  fst (updateNote unlimited (int 1) "x" one_saved) = Return true /\
  fst (updateNote unlimited (int 1) "x"
         (snd (updateNote unlimited (int 1) "x" one_saved))) = Return true.
Proof.
  destruct (updateNote_twice unlimited one_saved (int 1) "x"
              [saved_of starry_night]) as (R1 & R2 & _).
  - reflexivity.
  - reflexivity.
  - simpl. lia.
  - reflexivity.
  - split; [exact R1 | exact R2].
Defined.

Lemma duplicates_in_stored_text_witness :
  fst (loadGallery stored_twice) =
    Return [with_note (saved_of starry_night) "first";
            with_note (saved_of starry_night) "second"] /\
  fst (removeFromGallery unlimited (int 1) stored_twice) = Return true /\
  fst (loadGallery (snd (removeFromGallery unlimited (int 1) stored_twice))) =
    Return [] /\
  fst (updateNote unlimited (int 1) "new" stored_twice) = Return true /\
  fst (loadGallery (snd (updateNote unlimited (int 1) "new" stored_twice))) =
    Return [with_note (saved_of starry_night) "new";
            with_note (saved_of starry_night) "second"].
Proof.
  destruct (duplicates_in_stored_text unlimited stored_twice [] [] []
              (starry_json "first") (starry_json "second")
              (with_note (saved_of starry_night) "first")
              (with_note (saved_of starry_night) "second")
              "new" eq_refl eq_refl eq_refl eq_refl eq_refl)
    as (L & R & U).
  destruct (R eq_refl) as (R1 & g' & R2 & R3 & _).
  destruct U as (U1 & U2); [simpl; lia | reflexivity |].
  split; [exact L|]. split; [exact R1|].
  split; [rewrite R3 in R2; exact R2|].
  split; [exact U1 | exact U2].
Defined.

Lemma loadGallery_never_raises_witness :
  fst (loadGallery one_corrupt) = Return [saved_of starry_night] /\
  read_only one_corrupt (snd (loadGallery one_corrupt)).
Proof.
  destruct (loadGallery_never_raises one_corrupt)
    as (g & L & R & _ & _ & _ & _ & H).
  destruct (H (starry_json "") (saved_of starry_night)
              [("title", VString "no id")] eq_refl eq_refl) as [Hg _].
  rewrite (Hg eq_refl) in L. split; [exact L | exact R].
Defined.

Lemma ArtworkSchema_fails_exactly_witness :
  is_ok (ArtworkSchema (VObject [("id", VNumber (int 1))])) = true /\
  is_ok (ArtworkSchema (VObject [("title", VString "no id")])) = false /\
  is_ok (ArtworkSchema (VObject [("id", VNumber (int 1)); ("title", VNull)])) = false.
Proof.
  rewrite !ArtworkSchema_fails_exactly. repeat split.
Defined.

Lemma note_limit_witness :
  (exists issues,
      NoteSchema (VObject [("artworkId", VNumber (int 1));
                           ("note", VString (note_of_length 501))]) = Err issues /\
      In (Issue (too_big 500 "Notiz darf maximal 500 Zeichen lang sein") ["note"])
         issues) /\
  SavedArtworkSchema (VObject (("note", VString (note_of_length 501))
                               :: [("id", VNumber (int 1));
                                   ("title", VString "Starry Night");
                                   ("artist_title", VString "Van Gogh");
                                   ("image_id", VNull)])) =
    Ok (with_note (saved_of starry_night) (note_of_length 501)).
Proof.
  split.
  - apply (proj1 (note_limit [("artworkId", VNumber (int 1));
                              ("note", VString (note_of_length 501))])
             (note_of_length 501)).
    + reflexivity.
    + rewrite note_of_length_length. apply le_n.
  - exact (proj2 (proj2 (proj2 (note_limit [("id", VNumber (int 1));
                                            ("title", VString "Starry Night");
                                            ("artist_title", VString "Van Gogh");
                                            ("image_id", VNull)])
                           (saved_of starry_night) eq_refl))
             (note_of_length 501)).
Defined.

(** The scenario of the specification, from an empty store: add, load,
    update the note, load, remove, load. *)
Example end_to_end :
  let w1 := snd (addToGallery unlimited starry_night empty_storage) in
  let w2 := snd (updateNote unlimited (int 1) "Love the brushwork" w1) in
  let w3 := snd (removeFromGallery unlimited (int 1) w2) in
  fst (addToGallery unlimited starry_night empty_storage) = Return true /\
  fst (loadGallery w1) = Return [saved_of starry_night] /\
  fst (updateNote unlimited (int 1) "Love the brushwork" w1) = Return true /\
  fst (loadGallery w2) =
    Return [with_note (saved_of starry_night) "Love the brushwork"] /\
  fst (removeFromGallery unlimited (int 1) w2) = Return true /\
  fst (loadGallery w3) = Return [].
Proof. repeat split. Qed.

(** * More of the code: properties *)

(** ** The store functions, all cases *)

(** What [addToGallery] does, by the stored collection, the identifier and
    the browser's answer to the write. *)
Lemma addToGallery_cases quota a w :
  let g := decode (stored w) in
  let r := addToGallery quota a w in
  (existsb (fun item => number_eq (id item) (Artwork.id a)) g = true /\
   fst r = Return false /\ stored (snd r) = stored w) \/
  (existsb (fun item => number_eq (id item) (Artwork.id a)) g = false /\
   isFinite (Artwork.id a) = false /\
   fst r = Throw (Error "Kunstwerk konnte nicht zur Galerie hinzugefügt werden") /\
   read_only w (snd r)) \/
  (existsb (fun item => number_eq (id item) (Artwork.id a)) g = false /\
   isFinite (Artwork.id a) = true /\
   quota (text_of (g ++ [saved_of a])) = false /\
   fst r = Throw (Error "Kunstwerk konnte nicht zur Galerie hinzugefügt werden") /\
   stored (snd r) = stored w) \/
  (existsb (fun item => number_eq (id item) (Artwork.id a)) g = false /\
   isFinite (Artwork.id a) = true /\
   quota (text_of (g ++ [saved_of a])) = true /\
   fst r = Return true /\
   stored (snd r) = Some (text_of (g ++ [saved_of a]))).
Proof.
  intros g r. subst g r.
  destruct (existsb _ (decode (stored w))) eqn:Hex.
  - left. destruct (addToGallery_duplicate quota a w Hex) as (evs & E & _).
    rewrite E. auto.
  - right. destruct (isFinite (Artwork.id a)) eqn:Hfin.
    + right.
      destruct (quota (text_of (decode (stored w) ++ [saved_of a]))) eqn:Hq.
      * right. destruct (addToGallery_new quota a w Hex Hfin Hq) as (evs & E & _).
        rewrite E. auto.
      * left. destruct (loadGallery_run w) as (evs & E & C).
        unfold addToGallery, try_catch, bind. rewrite E. cbv beta iota.
        rewrite Hex. fold (saved_of a). unfold parse.
        rewrite (SavedArtworkSchema_to_value (saved_of a) Hfin).
        unfold ret. cbv beta iota.
        rewrite !(saveGallery_rejected _ _ _ Hq). cbn; auto.
    + left. destruct (loadGallery_run w) as (evs & E & C).
      pose proof (SavedArtworkSchema_not_finite (saved_of a) Hfin) as N.
      unfold addToGallery, try_catch, bind. rewrite E. cbv beta iota.
      rewrite Hex. fold (saved_of a). unfold parse.
      destruct (SavedArtworkSchema (to_value (saved_of a))) as [|iss];
        try discriminate.
      unfold throw, console_error, emit. cbn [fst snd stored events].
      repeat split.
      eexists. rewrite <- app_assoc. split; [reflexivity|].
      cbn [forallb app writes negb andb].
      rewrite forallb_app, (console_only_no_write _ C). reflexivity.
Qed.

Lemma set_first_note_absent aid n g :
  existsb (fun item => number_eq (id item) aid) g = false ->
  set_first_note aid n g = g.
Proof.
  induction g as [|x g IH]; simpl; auto.
  intros H. apply orb_false_iff in H. destruct H as [Hx H].
  now rewrite Hx, (IH H).
Qed.

(** What [updateNote] does, by the length of the note, the stored
    collection and the browser's answer to the write. *)
Lemma updateNote_cases quota aid n w :
  let g := decode (stored w) in
  let r := updateNote quota aid n w in
  ((500 < String.length n)%nat /\
   fst r = Throw (Error "Notiz konnte nicht aktualisiert werden") /\
   stored (snd r) = stored w) \/
  ((String.length n <= 500)%nat /\
   existsb (fun item => number_eq (id item) aid) g = false /\
   fst r = Return false /\ stored (snd r) = stored w) \/
  ((String.length n <= 500)%nat /\
   existsb (fun item => number_eq (id item) aid) g = true /\
   quota (text_of (set_first_note aid n g)) = false /\
   fst r = Throw (Error "Notiz konnte nicht aktualisiert werden") /\
   stored (snd r) = stored w) \/
  ((String.length n <= 500)%nat /\
   existsb (fun item => number_eq (id item) aid) g = true /\
   quota (text_of (set_first_note aid n g)) = true /\
   fst r = Return true /\
   stored (snd r) = Some (text_of (set_first_note aid n g))).
Proof.
  intros g r. subst g r.
  destruct (Nat.ltb_spec 500 (String.length n)) as [Hlong|Hlen].
  - left. rewrite (updateNote_too_long quota aid n w Hlong). auto.
  - right. destruct (existsb _ (decode (stored w))) eqn:Hex.
    + right.
      destruct (existsb_first _ _ Hex) as (l1 & x & l2 & Hsplit & H1 & Hx).
      rewrite Hsplit, (set_first_note_split aid n l1 x l2 H1 Hx).
      destruct (quota (text_of (l1 ++ with_note x n :: l2))) eqn:Hq.
      * right.
        destruct (updateNote_found quota aid n w l1 x l2 Hlen Hsplit H1 Hx Hq)
          as (evs & E & _).
        rewrite E. auto.
      * left.
        destruct (updateNote_rejected quota aid n w l1 x l2 Hlen Hsplit H1 Hx Hq)
          as [R S].
        auto.
    + left. destruct (updateNote_not_found quota aid n w Hlen Hex) as (evs & E & _).
      rewrite E. auto.
Qed.

(** What [removeFromGallery] does, by the stored collection and the
    browser's answer to the write. *)
Lemma removeFromGallery_cases quota aid w :
  let g := decode (stored w) in
  let r := removeFromGallery quota aid w in
  (existsb (fun item => number_eq (id item) aid) g = false /\
   fst r = Return false /\ stored (snd r) = stored w) \/
  (existsb (fun item => number_eq (id item) aid) g = true /\
   quota (text_of (filter (fun item => negb (number_eq (id item) aid)) g)) = false /\
   fst r = Throw (Error "Kunstwerk konnte nicht aus der Galerie entfernt werden") /\
   stored (snd r) = stored w) \/
  (existsb (fun item => number_eq (id item) aid) g = true /\
   quota (text_of (filter (fun item => negb (number_eq (id item) aid)) g)) = true /\
   fst r = Return true /\
   stored (snd r) =
     Some (text_of (filter (fun item => negb (number_eq (id item) aid)) g))).
Proof.
  intros g r. subst g r.
  destruct (existsb _ (decode (stored w))) eqn:Hex.
  - right.
    destruct (quota (text_of (filter _ (decode (stored w))))) eqn:Hq.
    + right. destruct (removeFromGallery_found quota aid w Hex Hq) as (evs & E & _).
      rewrite E. auto.
    + left. destruct (loadGallery_run w) as (evs & E & C).
      unfold removeFromGallery, try_catch, bind. rewrite E. cbv beta iota.
      rewrite Hex. change (negb true) with false. cbv beta iota.
      rewrite !(saveGallery_rejected _ _ _ Hq). cbn. auto.
  - left. destruct (removeFromGallery_not_found quota aid w Hex) as (evs & E & _).
    rewrite E. auto.
Qed.

(** What [clearGallery] does, by the browser's answer to the removal. *)
Lemma clearGallery_run removable w :
  clearGallery removable w =
    if removable
    then (Return tt, World None (events w ++ [RemoveItem]))
    else (Throw (Error "Galerie konnte nicht gelöscht werden"),
          World (stored w)
                (events w ++ [RemoveItem;
                              ConsoleError "Fehler beim Löschen der Galerie:"
                                (Some SecurityError)])).
Proof.
  unfold clearGallery, try_catch, localStorage_removeItem.
  destruct removable; [reflexivity|].
  unfold bind, console_error, emit, throw. cbn [fst snd stored events].
  now rewrite <- app_assoc.
Qed.

(** ** Identifiers under [===] *)

Lemma number_eq_trans a b c :
  number_eq a b = true -> number_eq b c = true -> number_eq a c = true.
Proof.
  destruct a, b, c; simpl; try discriminate; auto.
  rewrite !Qeq_bool_iff. intros H1 H2. now rewrite H1.
Qed.

Lemma number_eq_finite_l a b : number_eq a b = true -> isFinite a = true \/ a = b.
Proof. destruct a, b; simpl; try discriminate; auto. Qed.

Lemma existsb_id_ext (aid : number) (g g' : list SavedArtwork) :
  map id g = map id g' ->
  existsb (fun item => number_eq (id item) aid) g =
  existsb (fun item => number_eq (id item) aid) g'.
Proof.
  revert g'. induction g as [|x g IH]; intros [|y g'] H; try discriminate; auto.
  simpl in *. injection H as Hx Hg. now rewrite Hx, (IH _ Hg).
Qed.

Lemma set_first_note_ids aid n g : map id (set_first_note aid n g) = map id g.
Proof.
  induction g as [|x g IH]; simpl; auto.
  destruct (number_eq (id x) aid); simpl; auto. now rewrite IH.
Qed.

Lemma set_first_note_length aid n g :
  List.length (set_first_note aid n g) = List.length g.
Proof.
  rewrite <- (length_map id (set_first_note aid n g)), set_first_note_ids.
  apply length_map.
Qed.

Lemma unique_ids_by_ids g g' :
  map id g = map id g' -> unique_ids g = unique_ids g'.
Proof.
  revert g'. induction g as [|x g IH]; intros [|y g'] H; try discriminate; auto.
  simpl in *. injection H as Hx Hg.
  now rewrite (existsb_id_ext (id x) g g' Hg), Hx, (IH _ Hg).
Qed.

Lemma existsb_filter_true {A} (q p : A -> bool) l :
  existsb q (filter p l) = true -> existsb q l = true.
Proof.
  induction l as [|x l IH]; simpl; auto.
  destruct (p x); simpl; intros H.
  - apply orb_true_iff in H. destruct H as [H|H]; [now rewrite H|].
    rewrite (IH H). apply orb_true_r.
  - rewrite (IH H). apply orb_true_r.
Qed.

Lemma unique_ids_filter p g : unique_ids g = true -> unique_ids (filter p g) = true.
Proof.
  induction g as [|x g IH]; simpl; auto.
  intros H. apply andb_true_iff in H. destruct H as [Hx Hg].
  destruct (p x); simpl; auto.
  rewrite (IH Hg), andb_true_r. apply negb_true_iff.
  apply negb_true_iff in Hx.
  destruct (existsb (fun item => number_eq (id item) (id x)) (filter p g)) eqn:E;
    auto.
  apply existsb_filter_true in E. congruence.
Qed.

Lemma finite_ids_set_first_note aid n g :
  finite_ids g -> finite_ids (set_first_note aid n g).
Proof.
  unfold finite_ids. induction 1 as [|x g Hx Hg IH]; simpl; [constructor|].
  destruct (number_eq (id x) aid); constructor; auto.
Qed.

Lemma notes_within_limit_set_first_note aid n g :
  (String.length n <= 500)%nat ->
  notes_within_limit g = true ->
  notes_within_limit (set_first_note aid n g) = true.
Proof.
  intros Hn. unfold notes_within_limit.
  induction g as [|x g IH]; simpl; auto.
  intros H. apply andb_true_iff in H. destruct H as [Hx Hg].
  destruct (number_eq (id x) aid); simpl.
  - rewrite Hg, andb_true_r. now apply Nat.leb_le.
  - now rewrite Hx, (IH Hg).
Qed.

Lemma notes_within_limit_filter p g :
  notes_within_limit g = true -> notes_within_limit (filter p g) = true.
Proof.
  unfold notes_within_limit. rewrite !forallb_forall. intros H x Hx.
  apply filter_In in Hx. apply H, Hx.
Qed.

(** ** One call of the store, as a change of the collection *)

(** After any one call the collection read back is the old one, or the old
    one with the new record at its end, or with one note replaced, or
    without the records of one identifier, or empty. *)
Lemma perform_decode quota removable op w :
  let g := decode (stored w) in
  let g' := decode (stored (perform quota removable op w)) in
  g' = g \/
  (exists a, op = Add a /\
             existsb (fun item => number_eq (id item) (Artwork.id a)) g = false /\
             g' = g ++ [saved_of a]) \/
  (exists aid n, op = Update aid n /\ (String.length n <= 500)%nat /\
                 g' = set_first_note aid n g) \/
  (exists aid, op = Remove aid /\
               g' = filter (fun item => negb (number_eq (id item) aid)) g) \/
  g' = [].
Proof.
  intros g g'. subst g g'. destruct op as [a|aid n|aid|]; cbn [perform].
  - destruct (addToGallery_cases quota a w)
      as [(_ & _ & S)|[(_ & _ & _ & S & _)|[(_ & _ & _ & _ & S)|(Hex & Hfin & _ & _ & S)]]];
      rewrite S; auto.
    right. left. exists a. split; [reflexivity|]. split; [exact Hex|].
    apply decode_text_of. apply finite_ids_app; [apply decode_finite|].
    constructor; [exact Hfin | constructor].
  - destruct (updateNote_cases quota aid n w)
      as [(_ & _ & S)|[(_ & _ & _ & S)|[(_ & _ & _ & _ & S)|(Hlen & _ & _ & _ & S)]]];
      rewrite S; auto.
    right. right. left. exists aid, n. split; [reflexivity|]. split; [exact Hlen|].
    apply decode_text_of, finite_ids_set_first_note, decode_finite.
  - destruct (removeFromGallery_cases quota aid w)
      as [(_ & _ & S)|[(_ & _ & _ & S)|(_ & _ & _ & S)]]; rewrite S; auto.
    right. right. right. left. exists aid. split; [reflexivity|].
    apply decode_text_of, finite_ids_filter, decode_finite.
  - rewrite clearGallery_run.
    destruct removable; cbn [snd stored];
      [right; right; right; right; reflexivity | left; reflexivity].
Qed.

(** X1. Starting from a stored collection without two records of one
    identifier, after any sequence of [addToGallery], [updateNote],
    [removeFromGallery] and [clearGallery] calls, whatever each returns or
    throws, the stored collection has no two records of one identifier. *)
Theorem store_keeps_unique_ids (quota : text -> bool) (removable : bool)
        (ops : list operation) (w : world) (g : list SavedArtwork) :
  fst (loadGallery w) = Return g ->
  unique_ids g = true ->
  exists g',
    fst (loadGallery (perform_all quota removable ops w)) = Return g' /\
    unique_ids g' = true.
Proof.
  intros Hg. apply loaded_is_decode in Hg. subst g. intros U.
  exists (decode (stored (perform_all quota removable ops w))).
  split; [apply loadGallery_result|].
  revert w U. induction ops as [|op ops IH]; intros w U; cbn [perform_all]; auto.
  apply IH.
  destruct (perform_decode quota removable op w)
    as [E|[(a & _ & Hex & E)|[(aid & n & _ & _ & E)|[(aid & _ & E)|E]]]];
    rewrite E; auto.
  - now apply unique_ids_snoc.
  - now rewrite (unique_ids_by_ids _ _ (set_first_note_ids aid n _)).
  - now apply unique_ids_filter.
Qed.

(** X2. Starting from a stored collection whose notes have at most 500
    characters, after any sequence of [addToGallery], [updateNote],
    [removeFromGallery] and [clearGallery] calls every stored note has at
    most 500 characters. *)
Theorem store_keeps_note_limit (quota : text -> bool) (removable : bool)
        (ops : list operation) (w : world) (g : list SavedArtwork) :
  fst (loadGallery w) = Return g ->
  notes_within_limit g = true ->
  exists g',
    fst (loadGallery (perform_all quota removable ops w)) = Return g' /\
    notes_within_limit g' = true.
Proof.
  intros Hg. apply loaded_is_decode in Hg. subst g. intros U.
  exists (decode (stored (perform_all quota removable ops w))).
  split; [apply loadGallery_result|].
  revert w U. induction ops as [|op ops IH]; intros w U; cbn [perform_all]; auto.
  apply IH.
  destruct (perform_decode quota removable op w)
    as [E|[(a & _ & Hex & E)|[(aid & n & _ & Hlen & E)|[(aid & _ & E)|E]]]];
    rewrite E; auto.
  - unfold notes_within_limit in *. rewrite forallb_app, U. reflexivity.
  - now apply notes_within_limit_set_first_note.
  - now apply notes_within_limit_filter.
Qed.

(** ** Membership *)

Lemma isInGallery_run aid w :
  exists evs,
    isInGallery aid w =
      (Return (existsb (fun item => number_eq (id item) aid) (decode (stored w))),
       World (stored w) (events w ++ GetItem :: evs)) /\
    console_only evs.
Proof.
  destruct (loadGallery_run w) as (evs & E & C). exists evs.
  unfold isInGallery, bind. rewrite E. split; [reflexivity | exact C].
Qed.

Lemma isInGallery_result aid w :
  fst (isInGallery aid w) =
    Return (existsb (fun item => number_eq (id item) aid) (decode (stored w))).
Proof. destruct (isInGallery_run aid w) as (evs & E & _). now rewrite E. Qed.

Lemma existsb_filter_other (aid aid' : number) (g : list SavedArtwork) :
  number_eq aid' aid = false ->
  existsb (fun item => number_eq (id item) aid')
    (filter (fun item => negb (number_eq (id item) aid)) g) =
  existsb (fun item => number_eq (id item) aid') g.
Proof.
  intros Hne. induction g as [|x g IH]; simpl; auto.
  destruct (number_eq (id x) aid) eqn:E; simpl.
  - rewrite IH. destruct (number_eq (id x) aid') eqn:E'; auto.
    rewrite number_eq_sym in E'.
    now rewrite (number_eq_trans _ _ _ E' E) in Hne.
  - now rewrite IH.
Qed.

(** X3. [isInGallery] never throws and calls neither [setItem] nor
    [removeItem]; it answers [true] exactly when [addToGallery] of an
    artwork with that identifier returns [false], that is, when the
    artwork counts as already stored. *)
Theorem isInGallery_agrees_with_addToGallery (quota : text -> bool)
        (a : Artwork.t) (w : world) :
  (exists b, fst (isInGallery (Artwork.id a) w) = Return b) /\
  read_only w (snd (isInGallery (Artwork.id a) w)) /\
  (fst (isInGallery (Artwork.id a) w) = Return true <->
   fst (addToGallery quota a w) = Return false).
Proof.
  destruct (isInGallery_run (Artwork.id a) w) as (evs & E & C).
  rewrite E. cbn [fst snd]. split; [eauto|].
  split; [now apply read_only_after_get|].
  destruct (addToGallery_cases quota a w)
    as [(Hex & R & _)|[(Hex & _ & R & _)|[(Hex & _ & _ & R & _)|(Hex & _ & _ & R & _)]]];
    rewrite R, Hex; split; intros H; try discriminate; reflexivity.
Qed.

(** X4. Whenever [addToGallery] returns, be it [true] or [false],
    [isInGallery] with the artwork's identifier answers [true] afterwards,
    and its answer for every other identifier is what it was before. *)
Theorem addToGallery_then_isInGallery (quota : text -> bool) (a : Artwork.t)
        (w : world) (b : bool) :
  fst (addToGallery quota a w) = Return b ->
  fst (isInGallery (Artwork.id a) (snd (addToGallery quota a w))) = Return true /\
  forall aid, number_eq (Artwork.id a) aid = false ->
    fst (isInGallery aid (snd (addToGallery quota a w))) =
    fst (isInGallery aid w).
Proof.
  intros R. rewrite !isInGallery_result.
  destruct (addToGallery_cases quota a w)
    as [(Hex & _ & S)|[(_ & _ & T & _)|[(_ & _ & _ & T & _)|(Hex & Hfin & _ & _ & S)]]];
    try (rewrite T in R; discriminate); rewrite S.
  - rewrite Hex. split; [reflexivity|]. intros aid _.
    now rewrite !isInGallery_result, S.
  - assert (F : finite_ids (decode (stored w) ++ [saved_of a])).
    { apply finite_ids_app; [apply decode_finite|].
      constructor; [exact Hfin | constructor]. }
    rewrite (decode_text_of _ F), existsb_app. cbn [existsb saved_of id].
    rewrite (number_eq_refl _ Hfin), orb_true_r. split; [reflexivity|].
    intros aid Hne.
    rewrite !isInGallery_result, S, (decode_text_of _ F), existsb_app.
    cbn [existsb saved_of id]. rewrite Hne. now rewrite !orb_false_r.
Qed.

(** X5. Whenever [removeFromGallery] returns, be it [true] or [false],
    [isInGallery] with that identifier answers [false] afterwards, and its
    answer for every other identifier is what it was before. *)
Theorem removeFromGallery_then_isInGallery (quota : text -> bool)
        (aid : number) (w : world) (b : bool) :
  fst (removeFromGallery quota aid w) = Return b ->
  fst (isInGallery aid (snd (removeFromGallery quota aid w))) = Return false /\
  forall aid', number_eq aid' aid = false ->
    fst (isInGallery aid' (snd (removeFromGallery quota aid w))) =
    fst (isInGallery aid' w).
Proof.
  intros R. rewrite !isInGallery_result.
  destruct (removeFromGallery_cases quota aid w)
    as [(Hex & _ & S)|[(_ & _ & T & _)|(Hex & _ & _ & S)]];
    try (rewrite T in R; discriminate); rewrite S.
  - rewrite Hex. split; [reflexivity|]. intros aid' _.
    now rewrite !isInGallery_result, S.
  - rewrite decode_text_of by (apply finite_ids_filter, decode_finite).
    rewrite existsb_filter_negb. split; [reflexivity|].
    intros aid' Hne. rewrite !isInGallery_result, S.
    rewrite decode_text_of by (apply finite_ids_filter, decode_finite).
    now rewrite existsb_filter_other.
Qed.

(** ** Writes *)

Lemma existsb_not_finite aid g :
  finite_ids g -> isFinite aid = false ->
  existsb (fun item => number_eq (id item) aid) g = false.
Proof.
  unfold finite_ids. induction 1 as [|x g Hx Hg IH]; simpl; auto.
  intros Ha. rewrite (IH Ha), orb_false_r.
  destruct (id x), aid; simpl in *; try discriminate; reflexivity.
Qed.

Lemma filter_all {A} (p : A -> bool) l : existsb (fun x => negb (p x)) l = false -> filter p l = l.
Proof.
  induction l as [|x l IH]; simpl; auto.
  intros H. apply orb_false_iff in H. destruct H as [Hx H].
  apply negb_false_iff in Hx. now rewrite Hx, (IH H).
Qed.

Lemma unique_ids_remove_one aid g :
  unique_ids g = true ->
  existsb (fun item => number_eq (id item) aid) g = true ->
  S (List.length (filter (fun item => negb (number_eq (id item) aid)) g)) =
  List.length g.
Proof.
  induction g as [|x g IH]; simpl; try discriminate.
  intros U Hex. apply andb_true_iff in U. destruct U as [Hx Hg].
  apply negb_true_iff in Hx.
  destruct (number_eq (id x) aid) eqn:E; simpl.
  - rewrite filter_all; [reflexivity|].
    apply not_true_is_false. intros F.
    apply existsb_exists in F. destruct F as (y & Hy & Hny).
    rewrite negb_involutive in Hny.
    assert (number_eq (id y) (id x) = true).
    { apply (number_eq_trans _ aid); [exact Hny | now rewrite number_eq_sym]. }
    assert (existsb (fun item => number_eq (id item) (id x)) g = true)
      by (apply existsb_exists; eauto).
    congruence.
  - simpl in Hex. now rewrite (IH Hg Hex).
Qed.

Lemma set_first_note_frame aid n g :
  Forall2 (fun old new => with_note new (note old) = old) g (set_first_note aid n g).
Proof.
  induction g as [|x g IH]; simpl; [constructor|].
  destruct (number_eq (id x) aid).
  - constructor; [now destruct x|].
    clear. induction g; constructor; auto. now destruct a.
  - constructor; [now destruct x | exact IH].
Qed.

Lemma set_first_note_others aid n g item :
  In item g -> number_eq (id item) aid = false -> In item (set_first_note aid n g).
Proof.
  induction g as [|x g IH]; simpl; auto.
  intros [->|H] Hne.
  - rewrite Hne. now left.
  - destruct (number_eq (id x) aid); [now right | right; auto].
Qed.

(** X6. Whenever [addToGallery], [updateNote] or [removeFromGallery] throws,
    it throws its own [Error] and the stored text is what it was before the
    call: a refused write, an over-long note or an invalid identifier loses
    nothing. *)
Theorem throw_leaves_storage (quota : text -> bool) (w : world) :
  (forall a e,
      fst (addToGallery quota a w) = Throw e ->
      e = Error "Kunstwerk konnte nicht zur Galerie hinzugefügt werden" /\
      stored (snd (addToGallery quota a w)) = stored w) /\
  (forall aid n e,
      fst (updateNote quota aid n w) = Throw e ->
      e = Error "Notiz konnte nicht aktualisiert werden" /\
      stored (snd (updateNote quota aid n w)) = stored w) /\
  (forall aid e,
      fst (removeFromGallery quota aid w) = Throw e ->
      e = Error "Kunstwerk konnte nicht aus der Galerie entfernt werden" /\
      stored (snd (removeFromGallery quota aid w)) = stored w).
Proof.
  split; [|split].
  - intros a e R.
    destruct (addToGallery_cases quota a w)
      as [(_ & T & _)|[(_ & _ & T & S & _)|[(_ & _ & _ & T & S)|(_ & _ & _ & T & _)]]];
      rewrite T in R; try discriminate; injection R as <-; auto.
  - intros aid n e R.
    destruct (updateNote_cases quota aid n w)
      as [(_ & T & S)|[(_ & _ & T & _)|[(_ & _ & _ & T & S)|(_ & _ & _ & T & _)]]];
      rewrite T in R; try discriminate; injection R as <-; auto.
  - intros aid e R.
    destruct (removeFromGallery_cases quota aid w)
      as [(_ & T & _)|[(_ & _ & T & S)|(_ & _ & T & _)]];
      rewrite T in R; try discriminate; injection R as <-; auto.
Qed.

Lemma throw_leaves_storage_witness :
  fst (addToGallery storage_full water_lilies one_saved) =
    Throw (Error "Kunstwerk konnte nicht zur Galerie hinzugefügt werden") /\
  stored (snd (addToGallery storage_full water_lilies one_saved)) =
    stored one_saved.
Proof.
  split; [reflexivity|].
  exact (proj2 (proj1 (throw_leaves_storage storage_full one_saved)
                  water_lilies _ eq_refl)).
Defined.

(** X7. After [addToGallery], [updateNote] or [removeFromGallery] has
    returned [true], the stored text is a JSON array every element of which
    passes [SavedArtworkSchema]: elements that were invalid in the old text
    are no longer stored. *)
Theorem success_stores_valid_records (quota : text -> bool) (w w' : world) :
  (exists a, addToGallery quota a w = (Return true, w')) \/
  (exists aid n, updateNote quota aid n w = (Return true, w')) \/
  (exists aid, removeFromGallery quota aid w = (Return true, w')) ->
  exists items,
    stored w' = Some (Json (VArray items)) /\
    Forall (fun v => is_ok (SavedArtworkSchema v) = true) items /\
    List.length items = List.length (decode (stored w')).
Proof.
  assert (K : forall g, finite_ids g ->
            exists items,
              Some (text_of g) = Some (Json (VArray items)) /\
              Forall (fun v => is_ok (SavedArtworkSchema v) = true) items /\
              List.length items = List.length (decode (Some (text_of g)))).
  { intros g F. exists (map jsonify (map to_value g)). split; [reflexivity|].
    split.
    - unfold finite_ids in F. rewrite Forall_forall in *. intros v Hv.
      apply in_map_iff in Hv. destruct Hv as (v0 & <- & Hv0).
      apply in_map_iff in Hv0. destruct Hv0 as (a & <- & Ha).
      now rewrite (SavedArtworkSchema_jsonify a (F a Ha)).
    - now rewrite (decode_text_of g F), !length_map. }
  intros [(a & R)|[(aid & n & R)|(aid & R)]].
  - destruct (addToGallery_cases quota a w)
      as [(_ & T & _)|[(_ & _ & T & _)|[(_ & _ & _ & T & _)|(_ & Hfin & _ & _ & S)]]];
      rewrite R in *; try discriminate.
    cbn [snd] in S. rewrite S. apply K.
    apply finite_ids_app; [apply decode_finite|].
    constructor; [exact Hfin | constructor].
  - destruct (updateNote_cases quota aid n w)
      as [(_ & T & _)|[(_ & _ & T & _)|[(_ & _ & _ & T & _)|(_ & _ & _ & _ & S)]]];
      rewrite R in *; try discriminate.
    cbn [snd] in S. rewrite S.
    apply K, finite_ids_set_first_note, decode_finite.
  - destruct (removeFromGallery_cases quota aid w)
      as [(_ & T & _)|[(_ & _ & T & _)|(_ & _ & _ & S)]];
      rewrite R in *; try discriminate.
    cbn [snd] in S. rewrite S.
    apply K, finite_ids_filter, decode_finite.
Qed.

Lemma success_stores_valid_records_witness :
  exists items,
    stored (snd (addToGallery unlimited water_lilies one_corrupt)) =
      Some (Json (VArray items)) /\
    Forall (fun v => is_ok (SavedArtworkSchema v) = true) items /\
    List.length items =
      List.length (decode (stored (snd (addToGallery unlimited water_lilies
                                          one_corrupt)))).
Proof.
  apply (success_stores_valid_records unlimited one_corrupt).
  left. exists water_lilies. reflexivity.
Defined.

(** X8. When the browser removes the entry, [clearGallery] returns and
    nothing is stored: [loadGallery] then returns the empty collection,
    [isInGallery] answers [false] for every identifier, and an artwork with
    a valid identifier can be added again (the browser accepting the
    write).  When the browser refuses the removal, [clearGallery] writes the
    refusal to the console and throws its own [Error], and the stored text,
    and so what [loadGallery] returns, is what it was. *)
Theorem clearGallery_empties (quota : text -> bool) (w : world) :
  (fst (clearGallery true w) = Return tt /\
   stored (snd (clearGallery true w)) = None /\
   fst (loadGallery (snd (clearGallery true w))) = Return [] /\
   (forall aid, fst (isInGallery aid (snd (clearGallery true w))) = Return false) /\
   (forall a, isFinite (Artwork.id a) = true ->
              quota (text_of [saved_of a]) = true ->
              fst (addToGallery quota a (snd (clearGallery true w))) = Return true)) /\
  (fst (clearGallery false w) =
     Throw (Error "Galerie konnte nicht gelöscht werden") /\
   stored (snd (clearGallery false w)) = stored w /\
   events (snd (clearGallery false w)) =
     events w ++ [RemoveItem;
                  ConsoleError "Fehler beim Löschen der Galerie:"
                    (Some SecurityError)] /\
   fst (loadGallery (snd (clearGallery false w))) = fst (loadGallery w)).
Proof.
  rewrite !clearGallery_run. cbn [fst snd stored events]. split.
  - split; [reflexivity|]. split; [reflexivity|].
    split; [now rewrite loadGallery_result|].
    split; [intros aid; now rewrite isInGallery_result|].
    intros a Hfin Hq.
    match goal with |- context [addToGallery quota a ?w1] =>
      destruct (addToGallery_new quota a w1 eq_refl Hfin Hq) as (evs & E & _)
    end.
    now rewrite E.
  - repeat split. now rewrite !loadGallery_result.
Qed.

Lemma clearGallery_empties_witness :
  fst (loadGallery (snd (clearGallery true two_saved))) = Return [] /\
  fst (addToGallery unlimited starry_night (snd (clearGallery true two_saved))) =
    Return true /\
  fst (clearGallery false two_saved) =
    Throw (Error "Galerie konnte nicht gelöscht werden") /\
  fst (loadGallery (snd (clearGallery false two_saved))) =
    Return [saved_of starry_night; with_note (saved_of water_lilies) "calm"].
Proof.
  destruct (clearGallery_empties unlimited two_saved)
    as ((_ & _ & L & _ & A) & (T & _ & _ & K)).
  split; [exact L|]. split; [exact (A starry_night eq_refl eq_refl)|].
  split; [exact T | exact K].
Defined.

(** X9. After [removeFromGallery] has returned [true], [loadGallery] gives
    the old collection without the records of that identifier: every other
    record is there, unchanged and in the same order.  When the old
    collection has no two records of one identifier, it is exactly one
    record shorter. *)
Theorem removeFromGallery_keeps_others (quota : text -> bool) (aid : number)
        (w : world) (g : list SavedArtwork) :
  fst (loadGallery w) = Return g ->
  fst (removeFromGallery quota aid w) = Return true ->
  fst (loadGallery (snd (removeFromGallery quota aid w))) =
    Return (filter (fun item => negb (number_eq (id item) aid)) g) /\
  (unique_ids g = true ->
   S (List.length (filter (fun item => negb (number_eq (id item) aid)) g)) =
   List.length g).
Proof.
  intros Hg R. apply loaded_is_decode in Hg. subst g.
  destruct (removeFromGallery_cases quota aid w)
    as [(_ & T & _)|[(_ & _ & T & _)|(Hex & _ & _ & S)]];
    try (rewrite T in R; discriminate).
  rewrite loadGallery_result, S.
  rewrite decode_text_of by (apply finite_ids_filter, decode_finite).
  split; [reflexivity|]. intros U. now apply unique_ids_remove_one.
Qed.

Lemma removeFromGallery_keeps_others_witness :
  fst (loadGallery (snd (removeFromGallery unlimited (int 1) two_saved))) =
    Return [with_note (saved_of water_lilies) "calm"].
Proof.
  exact (proj1 (removeFromGallery_keeps_others unlimited (int 1) two_saved
                  [saved_of starry_night; with_note (saved_of water_lilies) "calm"]
                  eq_refl eq_refl)).
Defined.

(** X10. After [updateNote] has returned [true], [loadGallery] gives a
    collection of the same length in which every record has all the fields
    of the old record at its place except possibly the note, and every
    record with another identifier is there unchanged. *)
Theorem updateNote_changes_notes_only (quota : text -> bool) (aid : number)
        (n : string) (w : world) (g : list SavedArtwork) :
  fst (loadGallery w) = Return g ->
  fst (updateNote quota aid n w) = Return true ->
  exists g',
    fst (loadGallery (snd (updateNote quota aid n w))) = Return g' /\
    List.length g' = List.length g /\
    Forall2 (fun old new => with_note new (note old) = old) g g' /\
    (forall item, In item g -> number_eq (id item) aid = false -> In item g').
Proof.
  intros Hg R. apply loaded_is_decode in Hg. subst g.
  destruct (updateNote_cases quota aid n w)
    as [(_ & T & _)|[(_ & _ & T & _)|[(_ & _ & _ & T & _)|(_ & _ & _ & _ & S)]]];
    try (rewrite T in R; discriminate).
  exists (set_first_note aid n (decode (stored w))).
  rewrite loadGallery_result, S.
  rewrite decode_text_of by (apply finite_ids_set_first_note, decode_finite).
  split; [reflexivity|]. split; [apply set_first_note_length|].
  split; [apply set_first_note_frame|].
  intros item. apply set_first_note_others.
Qed.

Lemma updateNote_changes_notes_only_witness :
  exists g',
    fst (loadGallery (snd (updateNote unlimited (int 1) "x" two_saved))) =
      Return g' /\
    List.length g' = 2%nat /\
    Forall2 (fun old new => with_note new (note old) = old)
      [saved_of starry_night; with_note (saved_of water_lilies) "calm"] g' /\
    (forall item,
        In item [saved_of starry_night; with_note (saved_of water_lilies) "calm"] ->
        number_eq (id item) (int 1) = false -> In item g').
Proof.
  exact (updateNote_changes_notes_only unlimited (int 1) "x" two_saved
           [saved_of starry_night; with_note (saved_of water_lilies) "calm"]
           eq_refl eq_refl).
Defined.

(** X11. A collection of records with finite identifiers that [saveGallery]
    has written (the browser accepting the write) is what [loadGallery]
    returns next: same records, same order. *)
Theorem saveGallery_then_loadGallery (quota : text -> bool)
        (g : list SavedArtwork) (w : world) :
  finite_ids g ->
  quota (text_of g) = true ->
  fst (saveGallery quota g w) = Return tt /\
  fst (loadGallery (snd (saveGallery quota g w))) = Return g.
Proof.
  intros F Hq. rewrite (saveGallery_ok quota g w Hq). cbn [fst snd].
  split; [reflexivity|]. rewrite loadGallery_result. cbn [stored].
  now rewrite decode_text_of.
Qed.

Lemma saveGallery_then_loadGallery_witness :
  fst (loadGallery
         (snd (saveGallery unlimited
                 [with_note (saved_of water_lilies) "calm"; saved_of starry_night]
                 one_corrupt))) =
    Return [with_note (saved_of water_lilies) "calm"; saved_of starry_night].
Proof.
  apply (saveGallery_then_loadGallery unlimited
           [with_note (saved_of water_lilies) "calm"; saved_of starry_night]
           one_corrupt).
  - repeat constructor.
  - reflexivity.
Defined.

(** X12. [addToGallery] of an artwork whose identifier is [NaN] or infinite
    throws its [Error] and calls neither [setItem] nor [removeItem],
    whatever is stored. *)
Theorem addToGallery_invalid_id (quota : text -> bool) (a : Artwork.t)
        (w : world) :
  isFinite (Artwork.id a) = false ->
  fst (addToGallery quota a w) =
    Throw (Error "Kunstwerk konnte nicht zur Galerie hinzugefügt werden") /\
  read_only w (snd (addToGallery quota a w)).
Proof.
  intros Hfin.
  pose proof (existsb_not_finite (Artwork.id a) _ (decode_finite (stored w)) Hfin)
    as Hex.
  destruct (addToGallery_cases quota a w)
    as [(H & _)|[(_ & _ & T & S)|[(_ & H & _)|(_ & H & _)]]];
    try congruence.
  split; [exact T | exact S].
Qed.

Lemma addToGallery_invalid_id_witness :
  fst (addToGallery unlimited
         (Artwork.mk NaN "Untitled" Null Null
            Undefined Undefined Undefined Undefined) one_saved) =
    Throw (Error "Kunstwerk konnte nicht zur Galerie hinzugefügt werden").
Proof.
  exact (proj1 (addToGallery_invalid_id unlimited
                  (Artwork.mk NaN "Untitled" Null Null
                     Undefined Undefined Undefined Undefined)
                  one_saved eq_refl)).
Defined.

(** ** More on the schemas *)

Lemma z_string_is_ok v : is_ok (z.string v) = is_string v.
Proof. now destruct v. Qed.

Lemma z_nullable_is_ok v : is_ok (z.nullable z.string v) = is_string_or_null v.
Proof. now destruct v. Qed.

Lemma z_note_is_ok v :
  is_ok (z.default "" (z.max 500 "Notiz darf maximal 500 Zeichen lang sein" z.string) v)
  = note_allowed v.
Proof.
  destruct v; try reflexivity. unfold z.default, z.max, z.string, note_allowed.
  now destruct (String.length s <=? 500)%nat.
Qed.

(** X13. [SavedArtworkSchema] fails exactly when the value is not an object,
    or [id] is not a finite number, or [title] is not a string, or
    [artist_title] or [image_id] is neither a string nor [null] (a missing
    one fails too), or one of the four descriptive fields is there and is
    neither a string nor [null], or [note] is there and is not a string. *)
Theorem SavedArtworkSchema_fails_exactly (v : value) :
  is_ok (SavedArtworkSchema v) = negb (SavedArtworkSchema_rejects v).
Proof.
  destruct v; try reflexivity.
  unfold SavedArtworkSchema, SavedArtworkSchema_rejects.
  rewrite !ap_is_ok, !field_is_ok. cbn [is_ok andb].
  rewrite z_number_is_ok, z_string_is_ok, !z_nullable_is_ok,
    !z_nullable_optional_is_ok, z_string_default_is_ok.
  rewrite !negb_orb, !negb_involutive. reflexivity.
Qed.

(** X14. [NoteSchema] accepts exactly the objects whose [artworkId] is a
    finite number and whose [note] is missing or a string of at most 500
    characters; the note it returns is that string, or the empty string for
    a missing one. *)
Theorem NoteSchema_accepts_exactly (v : value) :
  is_ok (NoteSchema v) =
    match v with
    | VObject o => is_number (get o "artworkId") && note_allowed (get o "note")
    | _ => false
    end /\
  forall r, NoteSchema v = Ok r ->
    exists o, v = VObject o /\
      get o "artworkId" = VNumber (artworkId r) /\
      (get o "note" = VUndefined /\ note_text r = "" \/
       get o "note" = VString (note_text r)).
Proof.
  split.
  - destruct v; try reflexivity. unfold NoteSchema.
    rewrite !ap_is_ok, !field_is_ok. cbn [is_ok andb].
    now rewrite z_number_is_ok, z_note_is_ok.
  - destruct v; try discriminate. intros r H. exists props.
    split; [reflexivity|]. unfold NoteSchema in H. invert_ap H.
    inversion H; subst; cbn [artworkId note_text]. split.
    + unfold z.number in *. destruct (get props "artworkId"); try discriminate.
      destruct (isFinite n); congruence.
    + unfold z.default, z.max, z.string in *.
      destruct (get props "note"); try discriminate.
      * left. split; [reflexivity | congruence].
      * right. destruct (String.length s <=? 500)%nat; congruence.
Qed.

(** X15. A record that has passed [SavedArtworkSchema] passes it again and
    comes back unchanged, as an object and after a trip through
    [JSON.stringify] and [JSON.parse]. *)
Theorem SavedArtworkSchema_stable (v : value) (a : SavedArtwork) :
  SavedArtworkSchema v = Ok a ->
  SavedArtworkSchema (to_value a) = Ok a /\
  SavedArtworkSchema (jsonify (to_value a)) = Ok a.
Proof.
  intros H. pose proof (SavedArtworkSchema_finite v a H) as F.
  split; [now apply SavedArtworkSchema_to_value | now apply SavedArtworkSchema_jsonify].
Qed.

Lemma SavedArtworkSchema_stable_witness :
  SavedArtworkSchema (to_value (with_note (saved_of starry_night) "first")) =
    Ok (with_note (saved_of starry_night) "first") /\
  SavedArtworkSchema (jsonify (to_value (with_note (saved_of starry_night) "first"))) =
    Ok (with_note (saved_of starry_night) "first").
Proof.
  exact (SavedArtworkSchema_stable (starry_json "first")
           (with_note (saved_of starry_night) "first") eq_refl).
Defined.

Lemma ArtworkSchema_finite v r : ArtworkSchema v = Ok r -> isFinite (Artwork.id r) = true.
Proof.
  destruct v; try discriminate. intros H.
  apply ArtworkSchema_Ok_inv in H. destruct H as [H _].
  exact (z_number_Ok_finite _ _ H).
Qed.

(** X16. Every artwork [ArtworkSchema] has accepted can go into the
    gallery: the record [addToGallery] builds from it passes
    [SavedArtworkSchema], and [addToGallery] returns [true] or [false] and
    throws only when the browser refuses the write. *)
Theorem validated_artwork_can_be_added (quota : text -> bool) (v : value)
        (r : Artwork.t) (w : world) :
  ArtworkSchema v = Ok r ->
  SavedArtworkSchema (to_value (saved_of r)) = Ok (saved_of r) /\
  (quota (text_of (decode (stored w) ++ [saved_of r])) = true ->
   exists b, fst (addToGallery quota r w) = Return b).
Proof.
  intros H. pose proof (ArtworkSchema_finite v r H) as F.
  split; [now apply SavedArtworkSchema_to_value|]. intros Hq.
  destruct (addToGallery_cases quota r w)
    as [(_ & T & _)|[(_ & N & _)|[(_ & _ & N & _)|(_ & _ & _ & T & _)]]];
    try congruence; eauto.
Qed.

Lemma validated_artwork_can_be_added_witness :
  SavedArtworkSchema (to_value (saved_of only_id)) = Ok (saved_of only_id) /\
  exists b, fst (addToGallery unlimited only_id two_saved) = Return b.
Proof.
  destruct (validated_artwork_can_be_added unlimited
              (VObject [("id", VNumber (int 1))]) only_id two_saved eq_refl)
    as [S A].
  split; [exact S | exact (A eq_refl)].
Defined.

(** ** Gallery.tsx *)

Lemma loadGalleryData_run st w :
  exists evs,
    Gallery.loadGalleryData st w =
      (Return tt,
       Gallery.mkState (decode (stored w)) (Gallery.editingArtwork st) None,
       World (stored w) (events w ++ GetItem :: evs)) /\
    console_only evs.
Proof.
  destruct (loadGallery_run w) as (evs & E & C0). exists evs.
  unfold Gallery.loadGalleryData, ctry, cbind, call. rewrite E.
  split; [reflexivity | exact C0].
Qed.

(** X17. [handleSaveNote] of the gallery never throws.  When the note is
    longer than 500 characters or the browser refuses the write, only the
    error line "Notiz konnte nicht gespeichert werden" is set and the stored
    text is unchanged; when no stored record has the identifier, nothing
    changes at all, no error is shown and the editor stays open; otherwise
    the note is stored, the gallery shown is the collection [loadGallery]
    returns, the editor is closed and the error line is cleared. *)
Theorem Gallery_handleSaveNote_outcome (quota : text -> bool) (aid : number)
        (n : string) (st : Gallery.State) (w : world) (g : list SavedArtwork) :
  fst (loadGallery w) = Return g ->
  exists st' w',
    Gallery.handleSaveNote quota aid n st w = (Return tt, st', w') /\
    ((500 < String.length n)%nat \/
     existsb (fun item => number_eq (id item) aid) g = true /\
     quota (text_of (set_first_note aid n g)) = false ->
     st' = Gallery.mkState (Gallery.gallery st) (Gallery.editingArtwork st)
             (Some "Notiz konnte nicht gespeichert werden") /\
     stored w' = stored w) /\
    ((String.length n <= 500)%nat ->
     existsb (fun item => number_eq (id item) aid) g = false ->
     st' = st /\ stored w' = stored w) /\
    ((String.length n <= 500)%nat ->
     existsb (fun item => number_eq (id item) aid) g = true ->
     quota (text_of (set_first_note aid n g)) = true ->
     st' = Gallery.mkState (set_first_note aid n g) None None /\
     fst (loadGallery w') = Return (set_first_note aid n g)).
Proof.
  intros Hg. apply loaded_is_decode in Hg. subst g.
  unfold Gallery.handleSaveNote, ctry, cbind, call.
  pose proof (updateNote_cases quota aid n w) as K. cbv zeta in K.
  destruct (updateNote quota aid n w) as [o w1] eqn:R. cbn [fst snd] in K.
  destruct K as [(Hlong & -> & S)|[(Hlen & Hex & -> & S)|[(Hlen & Hex & Hq & -> & S)|(Hlen & Hex & Hq & -> & S)]]].
  - eexists _, _. split; [reflexivity|]. cbn [stored].
    split; [auto|]. split; [intros; lia | intros; lia].
  - destruct st. eexists _, _. split; [reflexivity|].
    split; [intros [?|[? _]]; [lia | congruence]|].
    split; [auto | intros; congruence].
  - eexists _, _. split; [reflexivity|]. cbn [stored].
    split; [auto|]. split; [intros; congruence | intros; congruence].
  - destruct (loadGalleryData_run st w1) as (evs & E & _). rewrite E.
    eexists _, _. split; [reflexivity|]. cbn [Gallery.gallery Gallery.editingArtwork].
    rewrite loadGallery_result. cbn [stored]. rewrite S.
    rewrite decode_text_of by (apply finite_ids_set_first_note, decode_finite).
    split; [intros [?|[_ ?]]; [lia | congruence]|].
    split; [intros; congruence | auto].
Qed.

Lemma Gallery_handleSaveNote_outcome_witness :
  exists st' w',
    Gallery.handleSaveNote unlimited (int 2) "still" (Gallery.mkState [] (Some (int 2, "calm")) None)
      two_saved = (Return tt, st', w') /\
    st' = Gallery.mkState
            [saved_of starry_night; with_note (saved_of water_lilies) "still"]
            None None /\
    fst (loadGallery w') =
      Return [saved_of starry_night; with_note (saved_of water_lilies) "still"].
Proof.
  destruct (Gallery_handleSaveNote_outcome unlimited (int 2) "still"
              (Gallery.mkState [] (Some (int 2, "calm")) None) two_saved
              [saved_of starry_night; with_note (saved_of water_lilies) "calm"]
              eq_refl) as (st' & w' & R & _ & _ & H).
  exists st', w'. split; [exact R|]. apply H.
  - simpl. lia.
  - reflexivity.
  - reflexivity.
Defined.

(** X18. [handleRemoveFromGallery] of the gallery never throws.  When no
    stored record has the identifier nothing changes; when the browser
    refuses the write only the error line "Kunstwerk konnte nicht entfernt
    werden" is set; otherwise the gallery shown is the stored collection
    without the records of that identifier, the error line is cleared, and
    the note editor is closed exactly when it was open on that identifier. *)
Theorem Gallery_handleRemoveFromGallery_outcome (quota : text -> bool)
        (aid : number) (st : Gallery.State) (w : world) (g : list SavedArtwork) :
  fst (loadGallery w) = Return g ->
  exists st' w',
    Gallery.handleRemoveFromGallery quota aid st w = (Return tt, st', w') /\
    (existsb (fun item => number_eq (id item) aid) g = false ->
     st' = st /\ stored w' = stored w) /\
    (existsb (fun item => number_eq (id item) aid) g = true ->
     quota (text_of (filter (fun item => negb (number_eq (id item) aid)) g)) = false ->
     st' = Gallery.mkState (Gallery.gallery st) (Gallery.editingArtwork st)
             (Some "Kunstwerk konnte nicht entfernt werden") /\
     stored w' = stored w) /\
    (existsb (fun item => number_eq (id item) aid) g = true ->
     quota (text_of (filter (fun item => negb (number_eq (id item) aid)) g)) = true ->
     Gallery.gallery st' = filter (fun item => negb (number_eq (id item) aid)) g /\
     Gallery.error st' = None /\
     Gallery.editingArtwork st' =
       match Gallery.editingArtwork st with
       | Some (editing_id, currentNote) =>
           if number_eq editing_id aid then None
           else Some (editing_id, currentNote)
       | None => None
       end /\
     fst (loadGallery w') = Return (Gallery.gallery st')).
Proof.
  intros Hg. apply loaded_is_decode in Hg. subst g.
  unfold Gallery.handleRemoveFromGallery, ctry, cbind, call, current.
  pose proof (removeFromGallery_cases quota aid w) as K. cbv zeta in K.
  destruct (removeFromGallery quota aid w) as [o w1] eqn:R. cbn [fst snd] in K.
  destruct K as [(Hex & -> & S)|[(Hex & Hq & -> & S)|(Hex & Hq & -> & S)]].
  - destruct st. eexists _, _. split; [reflexivity|].
    split; [auto|]. split; intros; congruence.
  - eexists _, _. split; [reflexivity|]. cbn [stored].
    split; [intros; congruence|]. split; [auto | intros; congruence].
  - destruct (loadGalleryData_run st w1) as (evs & E & _). rewrite E.
    assert (D : decode (stored w1) =
                filter (fun item => negb (number_eq (id item) aid))
                  (decode (stored w))).
    { rewrite S. apply decode_text_of, finite_ids_filter, decode_finite. }
    destruct (Gallery.editingArtwork st) as [[eid c]|] eqn:Ed.
    + destruct (number_eq eid aid) eqn:En;
        (eexists _, _; split; [reflexivity|];
         split; [intros; congruence|]; split; [intros; congruence|];
         intros _ _; cbn [Gallery.gallery Gallery.error Gallery.editingArtwork];
         rewrite loadGallery_result; cbn [stored]; rewrite D; auto).
    + eexists _, _. split; [reflexivity|].
      split; [intros; congruence|]. split; [intros; congruence|].
      intros _ _. cbn [Gallery.gallery Gallery.error Gallery.editingArtwork].
      rewrite loadGallery_result. cbn [stored]. rewrite D. auto.
Qed.

Lemma Gallery_handleRemoveFromGallery_outcome_witness :
  exists st' w',
    Gallery.handleRemoveFromGallery unlimited (int 1)
      (Gallery.mkState [] (Some (int 2, "calm")) (Some "old")) two_saved =
      (Return tt, st', w') /\
    Gallery.gallery st' = [with_note (saved_of water_lilies) "calm"] /\
    Gallery.error st' = None /\
    Gallery.editingArtwork st' = Some (int 2, "calm").
Proof.
  destruct (Gallery_handleRemoveFromGallery_outcome unlimited (int 1)
              (Gallery.mkState [] (Some (int 2, "calm")) (Some "old")) two_saved
              [saved_of starry_night; with_note (saved_of water_lilies) "calm"]
              eq_refl) as (st' & w' & R & _ & _ & H).
  exists st', w'. split; [exact R|].
  destruct (H eq_refl eq_refl) as (G & E & Ed & _).
  split; [exact G|]. split; [exact E | exact Ed].
Defined.

(** ** NoteEditor.tsx *)

Lemma NoteSchema_note_input aid n :
  isFinite aid = true ->
  NoteSchema (note_input aid n) =
    if (String.length n <=? 500)%nat then Ok (mkNote aid n)
    else Err [Issue (too_big 500 "Notiz darf maximal 500 Zeichen lang sein") ["note"]].
Proof.
  intros Hfin. unfold NoteSchema, note_input, z.field.
  cbn [get String.eqb Ascii.eqb Bool.eqb]. unfold z.number, z.default, z.max, z.string.
  rewrite Hfin. now destruct (String.length n <=? 500)%nat.
Qed.

(** An over-long note stops [handleSave] before [onSave]. *)
Lemma NoteEditor_handleSave_gate_helper (P : Type) (artworkId : number)
      (onSave : number -> string -> C P unit)
      (default_message : issue -> string)
      (nt : string) (ve : option string) (p : P) (w : world) :
  isFinite artworkId = true ->
  (500 < String.length nt)%nat ->
  NoteEditor.handleSave P artworkId onSave default_message
    (NoteEditor.mkState nt ve, p) w =
    (Return tt,
     (NoteEditor.mkState nt (Some "Notiz darf maximal 500 Zeichen lang sein"), p),
     w).
Proof.
  intros Hfin Hlong.
  unfold NoteEditor.handleSave, cbind, current, ctry, call, parse.
  cbn [fst snd]. rewrite (NoteSchema_note_input _ _ Hfin).
  cbn [fst snd NoteEditor.note]. rewrite (proj2 (Nat.leb_gt _ _) Hlong).
  reflexivity.
Qed.

(** X19. With a finite [artworkId], [handleSave] of the note editor calls
    [onSave] exactly when the note has at most 500 characters.  A longer
    note sets the validation line to "Notiz darf maximal 500 Zeichen lang
    sein" and leaves the parent's state and the browser untouched.
    Otherwise [onSave] runs on the identifier and the note; when it returns
    the validation line is cleared, and when it throws anything but a
    [ZodError] the exception is dropped and the editor is left as it was. *)
Theorem NoteEditor_handleSave_gate (P : Type) (artworkId : number)
        (onSave : number -> string -> C P unit)
        (default_message : issue -> string)
        (st : NoteEditor.State) (p : P) (w : world) :
  isFinite artworkId = true ->
  ((500 < String.length (NoteEditor.note st))%nat ->
   NoteEditor.handleSave P artworkId onSave default_message (st, p) w =
     (Return tt,
      (NoteEditor.mkState (NoteEditor.note st)
         (Some "Notiz darf maximal 500 Zeichen lang sein"), p),
      w)) /\
  ((String.length (NoteEditor.note st) <= 500)%nat ->
   exists r e,
     NoteEditor.handleSave P artworkId onSave default_message (st, p) w =
       (r, (NoteEditor.mkState (NoteEditor.note st) e,
            snd (fst (onSave artworkId (NoteEditor.note st) p w))),
        snd (onSave artworkId (NoteEditor.note st) p w)) /\
     (fst (fst (onSave artworkId (NoteEditor.note st) p w)) = Return tt ->
      r = Return tt /\ e = None) /\
     (forall x,
        fst (fst (onSave artworkId (NoteEditor.note st) p w)) = Throw x ->
        (forall issues, x <> ZodError issues) ->
        r = Return tt /\ e = NoteEditor.validationError st)).
Proof.
  intros Hfin. destruct st as [nt ve].
  cbn [NoteEditor.note NoteEditor.validationError]. split.
  - intros Hlong. now apply NoteEditor_handleSave_gate_helper.
  - intros Hlen.
    unfold NoteEditor.handleSave, cbind, current, ctry, call, parse,
      NoteEditor.parent.
    cbn [fst snd]. rewrite (NoteSchema_note_input _ _ Hfin).
    cbn [fst snd NoteEditor.note]. rewrite (proj2 (Nat.leb_le _ _) Hlen).
    unfold ret. cbv beta iota. cbn [fst snd].
    destruct (onSave artworkId nt p w) as [[o p'] w'].
    cbn [fst snd]. destruct o as [[]|x].
    + eexists _, _. split; [reflexivity|]. split; [auto|]. intros; discriminate.
    + destruct x as [m|[|i iss]| | | |];
        (eexists _, _; split;
         [unfold NoteEditor.show_validation_error, NoteEditor.setValidationError,
            set, cret, cthrow; reflexivity|];
         split; [intros; discriminate|];
         intros x Hx Hz; injection Hx as <-;
         try (exfalso; eapply Hz; reflexivity); auto).
Qed.

Lemma NoteEditor_handleSave_gate_witness :
  NoteEditor.handleSave Gallery.State (int 1)
    (Gallery.handleSaveNote unlimited) (fun _ => "")
    (NoteEditor.mkState (note_of_length 501) None, Gallery.mkState [] None None)
    one_saved =
  (Return tt,
   (NoteEditor.mkState (note_of_length 501)
      (Some "Notiz darf maximal 500 Zeichen lang sein"),
    Gallery.mkState [] None None),
   one_saved).
Proof.
  apply (proj1 (NoteEditor_handleSave_gate Gallery.State (int 1)
                  (Gallery.handleSaveNote unlimited) (fun _ => "")
                  (NoteEditor.mkState (note_of_length 501) None)
                  (Gallery.mkState [] None None) one_saved eq_refl)).
  cbn [NoteEditor.note]. rewrite note_of_length_length. apply le_n.
Defined.

(** X20. The note editor saving through the gallery
    ([onSave = handleSaveNote]), with a finite [artworkId]: the call never
    throws.  A note of more than 500 characters never reaches the store:
    the browser and the gallery's state are exactly as before and only the
    validation line is set.  A note of at most 500 characters for a stored
    identifier is stored (the browser accepting the write): the gallery
    shows it, its editor entry is closed and the validation line is
    cleared. *)
Theorem NoteEditor_saves_through_Gallery (quota : text -> bool)
        (artworkId : number) (default_message : issue -> string)
        (st : NoteEditor.State) (gst : Gallery.State) (w : world)
        (g : list SavedArtwork) :
  isFinite artworkId = true ->
  fst (loadGallery w) = Return g ->
  exists e gst' w',
    NoteEditor.handleSave Gallery.State artworkId
      (Gallery.handleSaveNote quota) default_message (st, gst) w =
      (Return tt, (NoteEditor.mkState (NoteEditor.note st) e, gst'), w') /\
    ((500 < String.length (NoteEditor.note st))%nat ->
     w' = w /\ gst' = gst /\
     e = Some "Notiz darf maximal 500 Zeichen lang sein") /\
    ((String.length (NoteEditor.note st) <= 500)%nat ->
     existsb (fun item => number_eq (id item) artworkId) g = true ->
     quota (text_of (set_first_note artworkId (NoteEditor.note st) g)) = true ->
     e = None /\
     gst' = Gallery.mkState (set_first_note artworkId (NoteEditor.note st) g)
              None None /\
     fst (loadGallery w') =
       Return (set_first_note artworkId (NoteEditor.note st) g)).
Proof.
  intros Hfin Hg. apply loaded_is_decode in Hg. subst g.
  destruct st as [nt ve]. cbn [NoteEditor.note].
  destruct (Nat.leb_spec (String.length nt) 500) as [Hlen|Hlong].
  - unfold NoteEditor.handleSave, cbind, current, ctry, call, parse,
      NoteEditor.parent.
    cbn [fst snd NoteEditor.note]. rewrite (NoteSchema_note_input _ _ Hfin).
    rewrite (proj2 (Nat.leb_le _ _) Hlen). unfold ret. cbv beta iota.
    cbn [fst snd].
    unfold Gallery.handleSaveNote, ctry, cbind, call.
    pose proof (updateNote_cases quota artworkId nt w) as K. cbv zeta in K.
    destruct (updateNote quota artworkId nt w) as [o w1] eqn:R.
    cbn [fst snd] in K.
    destruct K as [(Hl & _)|[(_ & Hex & -> & S)|[(_ & Hex & Hq & -> & S)|(_ & Hex & Hq & -> & S)]]];
      [lia| | |].
    + eexists _, _, _. split; [reflexivity|].
      split; [intros; lia | intros; congruence].
    + eexists _, _, _. split; [reflexivity|].
      split; [intros; lia | intros; congruence].
    + destruct (loadGalleryData_run gst w1) as (evs & E & _). rewrite E.
      eexists _, _, _. split; [reflexivity|].
      split; [intros; lia|]. intros _ _ _.
      split; [reflexivity|]. split; [|].
      * cbn [Gallery.gallery Gallery.editingArtwork Gallery.error stored].
        rewrite S.
        now rewrite decode_text_of
          by (apply finite_ids_set_first_note, decode_finite).
      * rewrite loadGallery_result. cbn [stored]. rewrite S.
        now rewrite decode_text_of
          by (apply finite_ids_set_first_note, decode_finite).
  - pose proof (NoteEditor_handleSave_gate_helper Gallery.State artworkId
                  (Gallery.handleSaveNote quota) default_message nt ve gst w
                  Hfin Hlong) as E.
    exists (Some "Notiz darf maximal 500 Zeichen lang sein"), gst, w.
    split; [exact E|]. split; [auto | intros; lia].
Qed.

Lemma NoteEditor_saves_through_Gallery_witness :
  exists e gst' w',
    NoteEditor.handleSave Gallery.State (int 2)
      (Gallery.handleSaveNote unlimited) (fun _ => "")
      (NoteEditor.mkState "still" (Some "old"),
       Gallery.mkState [] (Some (int 2, "calm")) None) two_saved =
      (Return tt, (NoteEditor.mkState "still" e, gst'), w') /\
    e = None /\
    gst' = Gallery.mkState
             [saved_of starry_night; with_note (saved_of water_lilies) "still"]
             None None /\
    fst (loadGallery w') =
      Return [saved_of starry_night; with_note (saved_of water_lilies) "still"].
Proof.
  destruct (NoteEditor_saves_through_Gallery unlimited (int 2) (fun _ => "")
              (NoteEditor.mkState "still" (Some "old"))
              (Gallery.mkState [] (Some (int 2, "calm")) None) two_saved
              [saved_of starry_night; with_note (saved_of water_lilies) "calm"]
              eq_refl eq_refl) as (e & gst' & w' & R & _ & H).
  exists e, gst', w'. split; [exact R|]. apply H.
  - simpl. lia.
  - reflexivity.
  - reflexivity.
Defined.

(** X21. With a finite [artworkId], after [handleNoteChange] the editor
    holds the new text, nothing else has changed, and the validation line
    is empty exactly when the text has at most 500 characters; the save
    button is then disabled exactly when the text is longer. *)
Theorem NoteEditor_handleNoteChange_validates (P : Type) (artworkId : number)
        (default_message : issue -> string) (newNote : string)
        (st : NoteEditor.State) (p : P) (w : world) :
  isFinite artworkId = true ->
  exists e,
    NoteEditor.handleNoteChange P artworkId default_message newNote (st, p) w =
      (Return tt, (NoteEditor.mkState newNote e, p), w) /\
    (e = None <-> (String.length newNote <= 500)%nat) /\
    NoteEditor.save_disabled (NoteEditor.mkState newNote e) =
      (500 <? String.length newNote)%nat.
Proof.
  intros Hfin.
  unfold NoteEditor.handleNoteChange, cbind, ctry, call, parse,
    NoteEditor.setNote, set.
  cbn [fst snd]. rewrite (NoteSchema_note_input _ _ Hfin).
  unfold NoteEditor.save_disabled, NoteEditor.MAX_NOTE_LENGTH.
  destruct (Nat.leb_spec (String.length newNote) 500) as [Hlen|Hlong].
  - exists None. split; [reflexivity|]. split; [tauto|].
    cbn [NoteEditor.validationError NoteEditor.note orb].
    destruct (Nat.ltb_spec 500 (String.length newNote)); [lia|].
    destruct (Z.ltb_spec 500 (Z.of_nat (String.length newNote))); [lia | reflexivity].
  - exists (Some "Notiz darf maximal 500 Zeichen lang sein").
    split; [reflexivity|]. split; [split; [discriminate | lia]|].
    cbn [NoteEditor.validationError NoteEditor.note].
    destruct (Nat.ltb_spec 500 (String.length newNote)); [reflexivity | lia].
Qed.

Lemma NoteEditor_handleNoteChange_validates_witness :
  exists e,
    NoteEditor.handleNoteChange Gallery.State (int 1) (fun _ => "")
      (note_of_length 501)
      (NoteEditor.mkState "" None, Gallery.mkState [] None None) one_saved =
      (Return tt,
       (NoteEditor.mkState (note_of_length 501) e, Gallery.mkState [] None None),
       one_saved) /\
    NoteEditor.save_disabled (NoteEditor.mkState (note_of_length 501) e) = true.
Proof.
  destruct (NoteEditor_handleNoteChange_validates Gallery.State (int 1)
              (fun _ => "") (note_of_length 501) (NoteEditor.mkState "" None)
              (Gallery.mkState [] None None) one_saved eq_refl)
    as (e & R & _ & D).
  exists e. split; [exact R|]. rewrite D, note_of_length_length. reflexivity.
Defined.

(** X22. The character counter of the note editor is never shown in the
    class "text-error", not even for a note longer than 500 characters: it
    is "text-warning" exactly when more than 450 characters are used. *)
Theorem NoteEditor_counter_never_error (st : NoteEditor.State) :
  NoteEditor.counter_class st <> "text-error" /\
  (NoteEditor.counter_class st = "text-warning" <->
   (450 < String.length (NoteEditor.note st))%nat).
Proof.
  unfold NoteEditor.counter_class, NoteEditor.remainingChars,
    NoteEditor.MAX_NOTE_LENGTH.
  destruct (Z.ltb_spec (500 - Z.of_nat (String.length (NoteEditor.note st))) 50).
  - split; [discriminate|]. split; [intros _; lia | reflexivity].
  - destruct (Z.ltb_spec (500 - Z.of_nat (String.length (NoteEditor.note st))) 0);
      [lia|].
    split; [discriminate|]. split; [discriminate | lia].
Qed.

(** ** The answer of the API *)

Lemma array_items_is_ok {A} (s : schema A) i items :
  is_ok (array_items s i items) = forallb (fun v => is_ok (s v)) items.
Proof.
  revert i. induction items as [|v rest IH]; intros i; [reflexivity|].
  cbn [array_items forallb]. rewrite !ap_is_ok, IH. cbn [is_ok andb].
  now destruct (s v).
Qed.

Lemma array_items_Ok_inv {A} (s : schema A) i items l :
  array_items s i items = Ok l -> Forall2 (fun v a => s v = Ok a) items l.
Proof.
  revert i l. induction items as [|v rest IH]; intros i l H.
  - injection H as <-. constructor.
  - cbn [array_items] in H.
    apply ap_Ok_inv in H. destruct H as (f & tl & H & Htl & ->).
    apply ap_Ok_inv in H. destruct H as (c & a & Hc & Ha & ->).
    injection Hc as <-. constructor; [|eapply IH; eauto].
    destruct (s v); [congruence | discriminate].
Qed.

Lemma PaginationSchema_is_ok v :
  is_ok (z.optional PaginationSchema v) = pagination_allowed v.
Proof.
  destruct v; try reflexivity. unfold z.optional, PaginationSchema.
  match goal with |- is_ok (match ?r with _ => _ end) = _ =>
    replace (is_ok (match r with Ok a => Ok (Defined a) | Err e => Err e end))
      with (is_ok r) by now destruct r
  end.
  rewrite !ap_is_ok, !field_is_ok, !z_number_is_ok. reflexivity.
Qed.

Lemma ArtworkAPIResponseSchema_is_ok o :
  is_ok (ArtworkAPIResponseSchema (VObject o)) =
    match get o "data" with
    | VArray items => forallb (fun item => is_ok (ArtworkSchema item)) items
    | _ => false
    end
    && pagination_allowed (get o "pagination").
Proof.
  unfold ArtworkAPIResponseSchema.
  rewrite !ap_is_ok, !field_is_ok, PaginationSchema_is_ok. cbn [is_ok andb].
  f_equal. unfold z_array. destruct (get o "data"); try reflexivity.
  apply array_items_is_ok.
Qed.

(** X23. [ArtworkAPIResponseSchema] accepts an answer exactly when it is an
    object whose [data] is an array every element of which passes
    [ArtworkSchema] and whose [pagination] is missing or an object with
    five finite numbers: one invalid artwork makes the whole answer fail.
    An accepted answer gives one artwork per element of [data], in the same
    order, each the result of [ArtworkSchema] on that element. *)
Theorem ArtworkAPIResponseSchema_all_or_nothing (v : value) :
  is_ok (ArtworkAPIResponseSchema v) =
    match v with
    | VObject o =>
        match get o "data" with
        | VArray items => forallb (fun item => is_ok (ArtworkSchema item)) items
        | _ => false
        end
        && pagination_allowed (get o "pagination")
    | _ => false
    end /\
  forall r, ArtworkAPIResponseSchema v = Ok r ->
    exists o items,
      v = VObject o /\ get o "data" = VArray items /\
      Forall2 (fun item a => ArtworkSchema item = Ok a)
        items (ArtworkAPIResponse.data r).
Proof.
  split.
  - destruct v; try reflexivity. apply ArtworkAPIResponseSchema_is_ok.
  - destruct v; try discriminate. intros r H. unfold ArtworkAPIResponseSchema in H.
    invert_ap H. injection H as <-. cbn [ArtworkAPIResponse.data].
    unfold z_array in *. destruct (get props "data") eqn:D; try discriminate.
    exists props, items. split; [reflexivity|]. split; [exact D|].
    eapply array_items_Ok_inv; eauto.
Qed.

Lemma ArtworkAPIResponseSchema_all_or_nothing_witness :
  is_ok (ArtworkAPIResponseSchema
           (VObject [("data", VArray [VObject [("id", VNumber (int 1))];
                                      VObject [("title", VString "no id")]])]))
  = false /\
  is_ok (ArtworkAPIResponseSchema
           (VObject [("data", VArray [VObject [("id", VNumber (int 1))]])]))
  = true.
Proof.
  split.
  - rewrite (proj1 (ArtworkAPIResponseSchema_all_or_nothing _)). reflexivity.
  - rewrite (proj1 (ArtworkAPIResponseSchema_all_or_nothing _)). reflexivity.
Defined.

(** ** The image address *)

Lemma string_length_append (a b : string) :
  String.length (a ++ b)%string = (String.length a + String.length b)%nat.
Proof. induction a; simpl; auto. Qed.

Lemma string_append_inv_head (p a b : string) :
  (p ++ a)%string = (p ++ b)%string -> a = b.
Proof. induction p; simpl; intros H; [exact H | injection H; auto]. Qed.

Lemma string_append_inv_tail (a b s : string) :
  (a ++ s)%string = (b ++ s)%string -> a = b.
Proof.
  revert b. induction a as [|c a IH]; intros [|d b] H; simpl in H.
  - reflexivity.
  - apply (f_equal String.length) in H. simpl in H.
    rewrite string_length_append in H. lia.
  - apply (f_equal String.length) in H. simpl in H.
    rewrite string_length_append in H. lia.
  - injection H as -> H. now rewrite (IH _ H).
Qed.

(** X24. [getImageUrl] returns [null] exactly for a [null] or empty image
    identifier; for the others the address determines the identifier: two
    identifiers with the same address at the same size are equal. *)
Theorem getImageUrl_null_and_injective (Number_toString : number -> string)
        (size : Optional number) :
  (forall imageId,
      getImageUrl Number_toString imageId size = Null <->
      imageId = Null \/ imageId = NotNull "") /\
  (forall i j,
      getImageUrl Number_toString (NotNull i) size =
      getImageUrl Number_toString (NotNull j) size ->
      i = j).
Proof.
  split.
  - intros [|[|c s]]; simpl; split; auto; try discriminate.
    intros [H|H]; discriminate.
  - intros i j H. unfold getImageUrl in H.
    destruct i as [|c i], j as [|d j]; try reflexivity; try discriminate.
    apply (f_equal (fun u => match u with NotNull s => s | Null => "" end)) in H.
    cbv beta iota in H.
    apply (string_append_inv_head AIC_IMAGE_BASE_URL) in H.
    apply (string_append_inv_head "/") in H.
    now apply string_append_inv_tail in H.
Qed.

(** ** The requests *)

Section Requests.

Variable Number_toString : number -> string.
Variable URL_toString : string -> list (string * string) -> string.
Variable library_message : exn -> string.
Variable network : string -> Api.fetched.

Local Notation "'search'" :=
  (Api.searchArtworks Number_toString URL_toString library_message network).
Local Notation "'url'" := (Api.search_url Number_toString URL_toString).

(** [searchArtworks] for a query that is not blank, by what the network
    gives. *)
Lemma searchArtworks_cases query limit offset log :
  Api.blank query = false ->
  let l := match limit with Undefined => int 20 | Defined l => l end in
  let o := match offset with Undefined => int 0 | Defined o => o end in
  let failed (m : string) :=
    (@Throw Api.SearchResult
       (Error ("Kunstwerke konnten nicht geladen werden: " ++ m)%string),
     log ++ [Api.Fetch (url query l o);
             Api.ConsoleError "Fehler beim Abrufen der Kunstwerke:" m]) in
  search query limit offset log =
    match network (url query l o) with
    | Api.Fails => failed (library_message TypeError)
    | Api.Answers r =>
        if negb (Api.ok r) then
          failed ("API-Anfrage fehlgeschlagen: "
                    ++ Number_toString (Api.status r) ++ " "
                    ++ Api.statusText r)%string
        else
          match Api.body r with
          | None => failed (library_message SyntaxError)
          | Some answer =>
              match ArtworkAPIResponseSchema answer with
              | Err issues => failed (library_message (ZodError issues))
              | Ok v =>
                  (Return (Api.mkSearchResult (ArtworkAPIResponse.data v)
                             (total_of answer) o l),
                   log ++ [Api.Fetch (url query l o)])
              end
          end
    end.
Proof.
  intros Hb l o failed. subst l o failed.
  unfold Api.searchArtworks, Api.try_catch, Api.bind, Api.fetch. rewrite Hb.
  destruct (network _) as [|r].
  - unfold Api.instanceof_Error, Api.console_error, Api.throw, Api.message.
    now rewrite <- app_assoc.
  - destruct (Api.ok r); cbn [negb].
    + unfold Api.ret at 1. cbv beta iota. unfold Api.json.
      destruct (Api.body r) as [answer|].
      * unfold Api.ret at 1. cbv beta iota. unfold Api.api_parse.
        pose proof (ArtworkAPIResponseSchema_is_ok) as K.
        destruct answer as [| | | | | |ob];
          try (cbn; now rewrite <- app_assoc).
        specialize (K ob).
        destruct (ArtworkAPIResponseSchema (VObject ob)) as [v|issues].
        -- cbn [is_ok] in K. symmetry in K. apply andb_true_iff in K.
           destruct K as [_ Kp].
           unfold Api.ret, Api.member, total_of. cbv beta iota.
           destruct (get ob "pagination") as [| | | | | |p]; try discriminate;
             reflexivity.
        -- cbn. now rewrite <- app_assoc.
      * cbn. now rewrite <- app_assoc.
    + cbn. now rewrite <- app_assoc.
Qed.

Lemma total_of_finite answer :
  is_ok (ArtworkAPIResponseSchema answer) = true ->
  exists n, total_of answer = VNumber n /\ isFinite n = true.
Proof.
  destruct answer as [| | | | | |o]; try discriminate.
  rewrite ArtworkAPIResponseSchema_is_ok. intros H.
  apply andb_true_iff in H. destruct H as [_ H]. unfold total_of.
  destruct (get o "pagination") as [| | | | | |p]; try discriminate;
    try (exists (int 0); split; reflexivity).
  cbn [pagination_allowed] in H. rewrite !andb_true_iff in H.
  destruct H as ((((Ht & _) & _) & _) & _).
  destruct (get p "total") as [| | |n| | |]; try discriminate.
  cbn [is_number] in Ht.
  destruct (Api.truthy (VNumber n));
    [exists n | exists (int 0)]; split; auto.
Qed.

Lemma response_data_finite answer v :
  ArtworkAPIResponseSchema answer = Ok v ->
  Forall (fun a => isFinite (Artwork.id a) = true) (ArtworkAPIResponse.data v).
Proof.
  destruct answer as [| | | | | |o]; try discriminate. intros H.
  unfold ArtworkAPIResponseSchema in H. invert_ap H. injection H as <-.
  cbn [ArtworkAPIResponse.data]. unfold z_array in *.
  destruct (get o "data"); try discriminate.
  match goal with Hd : array_items _ _ _ = Ok _ |- _ =>
    apply array_items_Ok_inv in Hd; induction Hd; constructor; auto;
    eapply ArtworkSchema_finite; eauto
  end.
Qed.

(** X25. [searchArtworks] with a query that is empty or all white space
    returns the empty result, total 0 and the given paging, without asking
    the network; with any other query it asks the network exactly once,
    whatever the answer. *)
Theorem searchArtworks_one_request query limit offset log :
  exists outcome_ extension,
    search query limit offset log = (outcome_, log ++ extension) /\
    (Api.blank query = true ->
     extension = [] /\
     outcome_ =
       Return (Api.mkSearchResult [] (VNumber (int 0))
                 match offset with Undefined => int 0 | Defined o => o end
                 match limit with Undefined => int 20 | Defined l => l end)) /\
    (Api.blank query = false ->
     exists rest,
       extension =
         Api.Fetch (url query
                      match limit with Undefined => int 20 | Defined l => l end
                      match offset with Undefined => int 0 | Defined o => o end)
         :: rest /\
       forall u, ~ In (Api.Fetch u) rest).
Proof.
  destruct (Api.blank query) eqn:Hb.
  - eexists _, []. rewrite app_nil_r. split.
    + unfold Api.searchArtworks, Api.try_catch. rewrite Hb.
      reflexivity.
    + split; [auto | discriminate].
  - rewrite (searchArtworks_cases query limit offset log Hb). cbv zeta.
    assert (NF : forall lbl m u,
               ~ In (Api.Fetch u) [Api.ConsoleError lbl m]).
    { intros lbl m u [H|[]]. discriminate. }
    destruct (network _) as [|r];
      [|destruct (negb (Api.ok r));
        [|destruct (Api.body r) as [answer|];
          [destruct (ArtworkAPIResponseSchema answer)|]]];
      eexists _, _; (split; [reflexivity|]); (split; [discriminate|]);
      intros _; eexists; (split; [reflexivity|]); auto.
Qed.

(** X26. Whatever [searchArtworks] returns has passed the schema: every
    artwork has a finite identifier, the total is a finite number, and the
    paging is the one asked for.  For a query that is not blank the network
    answered with success and with JSON that [ArtworkAPIResponseSchema]
    accepts, and the artworks returned are the ones it gives. *)
Theorem searchArtworks_returns_validated query limit offset log r log' :
  search query limit offset log = (Return r, log') ->
  Forall (fun a => isFinite (Artwork.id a) = true) (Api.data r) /\
  (exists n, Api.total r = VNumber n /\ isFinite n = true) /\
  Api.limit r = match limit with Undefined => int 20 | Defined l => l end /\
  Api.offset r = match offset with Undefined => int 0 | Defined o => o end /\
  (Api.blank query = false ->
   exists response answer v,
     network (url query (Api.limit r) (Api.offset r)) = Api.Answers response /\
     Api.ok response = true /\
     Api.body response = Some answer /\
     ArtworkAPIResponseSchema answer = Ok v /\
     Api.data r = ArtworkAPIResponse.data v).
Proof.
  destruct (Api.blank query) eqn:Hb.
  - unfold Api.searchArtworks, Api.try_catch. rewrite Hb.
    unfold Api.ret. intros [= <- _]. cbn.
    split; [constructor|]. split; [exists (int 0); auto|].
    split; [reflexivity|]. split; [reflexivity | discriminate].
  - rewrite (searchArtworks_cases query limit offset log Hb). cbv zeta.
    destruct (network _) as [|resp] eqn:N; [discriminate|].
    destruct (Api.ok resp) eqn:Ok_; cbn [negb]; [|discriminate].
    destruct (Api.body resp) as [answer|] eqn:B; [|discriminate].
    destruct (ArtworkAPIResponseSchema answer) as [v|] eqn:V; [|discriminate].
    intros [= <- _]. cbn [Api.data Api.total Api.limit Api.offset].
    split; [now apply (response_data_finite answer)|].
    split; [apply total_of_finite; now rewrite V|].
    split; [reflexivity|]. split; [reflexivity|]. intros _.
    exists resp, answer, v. auto.
Qed.

(** X27. Whenever [searchArtworks] rejects, it rejects with an [Error]
    whose message is "Kunstwerke konnten nicht geladen werden: " followed
    by the message of the cause, and that message is the last line written
    to the console.  For an answer that is not a success the cause names
    the status of the answer. *)
Theorem searchArtworks_rejects_wrapped query limit offset log e log' :
  search query limit offset log = (Throw e, log') ->
  exists m before,
    e = Error ("Kunstwerke konnten nicht geladen werden: " ++ m)%string /\
    log' = before ++ [Api.ConsoleError "Fehler beim Abrufen der Kunstwerke:" m] /\
    (forall response,
        network (url query
                   match limit with Undefined => int 20 | Defined l => l end
                   match offset with Undefined => int 0 | Defined o => o end)
          = Api.Answers response ->
        Api.ok response = false ->
        m = ("API-Anfrage fehlgeschlagen: "
               ++ Number_toString (Api.status response) ++ " "
               ++ Api.statusText response)%string).
Proof.
  destruct (Api.blank query) eqn:Hb.
  - unfold Api.searchArtworks, Api.try_catch. rewrite Hb.
    discriminate.
  - rewrite (searchArtworks_cases query limit offset log Hb). cbv zeta.
    destruct (network _) as [|resp] eqn:N.
    + intros [= <- <-]. eexists _, (log ++ [_]).
      split; [reflexivity|]. split; [now rewrite <- app_assoc | discriminate].
    + destruct (Api.ok resp) eqn:Ok_; cbn [negb].
      * destruct (Api.body resp) as [answer|] eqn:B;
          [destruct (ArtworkAPIResponseSchema answer) as [v|] eqn:V;
           [discriminate|]|];
          intros [= <- <-]; eexists _, (log ++ [_]);
          (split; [reflexivity|]);
          (split; [now rewrite <- app_assoc|]);
          intros response [= <-]; congruence.
      * intros [= <- <-]. eexists _, (log ++ [_]).
        split; [reflexivity|]. split; [now rewrite <- app_assoc|].
        now intros response [= <-] _.
Qed.

End Requests.

Lemma single_artwork_response d :
  ArtworkAPIResponseSchema (VObject [("data", VArray [d])]) =
    match ArtworkSchema d with
    | Ok a => Ok (ArtworkAPIResponse.mk [a] Undefined)
    | Err e =>
        Err (map (fun x => Issue (code x) ("data" :: path x))
               (map (fun x => Issue (code x) (index_key 0 :: path x)) e))
    end.
Proof.
  unfold ArtworkAPIResponseSchema, z.field.
  cbn [get String.eqb Ascii.eqb Bool.eqb z_array array_items].
  destruct (ArtworkSchema d) as [a|e]; reflexivity.
Qed.

(** X28. [getArtworkById] returns an artwork exactly when the network
    answers with success and with a JSON object whose [data] passes
    [ArtworkSchema]; the artwork returned is the result of [ArtworkSchema]
    on it, never [undefined], and the network was asked once.  In every
    other case the call rejects. *)
Theorem getArtworkById_returns (Number_toString : number -> string)
        (library_message : exn -> string) (network : string -> Api.fetched)
        (artworkId : number) (log log' : list Api.event)
        (r : Optional Artwork.t) :
  Api.getArtworkById Number_toString library_message network artworkId log =
    (Return r, log') <->
  exists response o a,
    network (Api.artwork_url Number_toString artworkId) = Api.Answers response /\
    Api.ok response = true /\
    Api.body response = Some (VObject o) /\
    ArtworkSchema (get o "data") = Ok a /\
    r = Defined a /\
    log' = log ++ [Api.Fetch (Api.artwork_url Number_toString artworkId)].
Proof.
  unfold Api.getArtworkById, Api.try_catch, Api.bind, Api.fetch.
  split.
  - destruct (network _) as [|resp] eqn:N; [discriminate|].
    destruct (Api.ok resp) eqn:Ok_; cbn [negb]; [|discriminate].
    unfold Api.ret at 1. cbv beta iota. unfold Api.json.
    destruct (Api.body resp) as [answer|] eqn:B; [|discriminate].
    unfold Api.ret at 1. cbv beta iota.
    destruct answer as [| | | | | |o]; unfold Api.member, Api.ret, Api.throw;
      cbv beta iota; unfold Api.api_parse;
      rewrite ?single_artwork_response; try discriminate.
    destruct (ArtworkSchema (get o "data")) as [a|e] eqn:A; [|discriminate].
    intros [= <- <-]. exists resp, o, a. repeat split; assumption.
  - intros (resp & o & a & N & Ok_ & B & A & -> & ->).
    rewrite N, Ok_. cbn [negb]. unfold Api.ret at 1. cbv beta iota.
    unfold Api.json. rewrite B. unfold Api.ret at 1. cbv beta iota.
    unfold Api.member, Api.ret. cbv beta iota. unfold Api.api_parse.
    rewrite single_artwork_response, A. reflexivity.
Qed.

Lemma searchArtworks_returns_validated_witness :
  exists r log',
    Api.searchArtworks plain_number plain_url plain_message one_found
      "monet" Undefined Undefined [] = (Return r, log') /\
    Forall (fun a => isFinite (Artwork.id a) = true) (Api.data r) /\
    Api.total r = VNumber (int 3) /\
    Api.limit r = int 20 /\ Api.offset r = int 0.
Proof.
  eexists _, _. split; [reflexivity|].
  destruct (searchArtworks_returns_validated plain_number plain_url
              plain_message one_found "monet" Undefined Undefined [] _ _ eq_refl)
    as (F & _ & L & O & _).
  split; [exact F|]. split; [reflexivity|]. split; [exact L | exact O].
Defined.

Lemma searchArtworks_rejects_wrapped_witness :
  exists m before,
    Error "Kunstwerke konnten nicht geladen werden: API-Anfrage fehlgeschlagen: n Internal Server Error"
      = Error ("Kunstwerke konnten nicht geladen werden: " ++ m)%string /\
    [Api.Fetch (Api.search_url plain_number plain_url "monet" (int 20) (int 0));
     Api.ConsoleError "Fehler beim Abrufen der Kunstwerke:"
       "API-Anfrage fehlgeschlagen: n Internal Server Error"] =
      before ++ [Api.ConsoleError "Fehler beim Abrufen der Kunstwerke:" m].
Proof.
  destruct (searchArtworks_rejects_wrapped plain_number plain_url plain_message
              server_error "monet" Undefined Undefined [] _ _ eq_refl)
    as (m & before & E & L & _).
  exists m, before. split; [exact E | exact L].
Defined.

Lemma getArtworkById_returns_witness :
  exists a,
    Api.getArtworkById plain_number plain_message
      (fun _ => Api.Answers
                  (Api.mkResponse true (int 200) "OK"
                     (Some (VObject [("data", VObject [("id", VNumber (int 1))])]))))
      (int 1) [] =
    (Return (Defined a), [Api.Fetch (Api.artwork_url plain_number (int 1))]) /\
    a = only_id.
Proof.
  exists only_id. split; [|reflexivity].
  apply (proj2 (getArtworkById_returns plain_number plain_message _ (int 1) [] _ _)).
  eexists _, _, _. repeat split; reflexivity.
Defined.

(** ** Concrete runs of the store and of the search *)

Lemma store_keeps_unique_ids_witness :
  exists g',
    fst (loadGallery
           (perform_all unlimited true
              [Add starry_night; Update (int 1) "x"; Add starry_night;
               Remove (int 2); Add water_lilies]
              two_saved)) = Return g' /\
    unique_ids g' = true.
Proof.
  apply (store_keeps_unique_ids unlimited true _ two_saved
           [saved_of starry_night; with_note (saved_of water_lilies) "calm"]).
  - reflexivity.
  - reflexivity.
Defined.

Lemma store_keeps_note_limit_witness :
  exists g',
    fst (loadGallery
           (perform_all unlimited false
              [Update (int 1) (note_of_length 501); Update (int 2) "short";
               Clear; Add water_lilies]
              two_saved)) = Return g' /\
    notes_within_limit g' = true.
Proof.
  apply (store_keeps_note_limit unlimited false _ two_saved
           [saved_of starry_night; with_note (saved_of water_lilies) "calm"]).
  - reflexivity.
  - reflexivity.
Defined.

Lemma addToGallery_then_isInGallery_witness :
  fst (isInGallery (int 2) (snd (addToGallery unlimited water_lilies one_saved))) =
    Return true /\
  fst (isInGallery (int 1) (snd (addToGallery unlimited water_lilies one_saved))) =
    fst (isInGallery (int 1) one_saved).
Proof.
  destruct (addToGallery_then_isInGallery unlimited water_lilies one_saved true
              eq_refl) as [H1 H2].
  split; [exact H1 | exact (H2 (int 1) eq_refl)].
Defined.

Lemma removeFromGallery_then_isInGallery_witness :
  fst (isInGallery (int 1) (snd (removeFromGallery unlimited (int 1) two_saved))) =
    Return false /\
  fst (isInGallery (int 2) (snd (removeFromGallery unlimited (int 1) two_saved))) =
    fst (isInGallery (int 2) two_saved).
Proof.
  destruct (removeFromGallery_then_isInGallery unlimited (int 1) two_saved true
              eq_refl) as [H1 H2].
  split; [exact H1 | exact (H2 (int 2) eq_refl)].
Defined.

Lemma searchArtworks_one_request_witness :
  exists outcome_ extension,
    Api.searchArtworks plain_number plain_url plain_message offline
      "  " (Defined (int 5)) Undefined [] = (outcome_, [] ++ extension) /\
    extension = [] /\
    outcome_ = Return (Api.mkSearchResult [] (VNumber (int 0)) (int 0) (int 5)).
Proof.
  destruct (searchArtworks_one_request plain_number plain_url plain_message
              offline "  " (Defined (int 5)) Undefined [])
    as (o & ext & R & B & _).
  exists o, ext. split; [exact R | exact (B eq_refl)].
Defined.
